(** * gen_images: sampling frames of a video into a directory of stills

    A shallow embedding of [colmapwork/gen_images.py].  The script is one
    function, [main]; it is embedded as a program in a small monad that
    threads the world (file system, remote site, event history) and the three
    ways a Python statement ends: normally, by [return], by an exception.

    Numbers are modelled as Python has them: [int] is [Z], [float] is an
    IEEE 754 binary64 value ([spec_float] at precision 53, [emax] 1024), with
    Python's exceptions on top of IEEE arithmetic ([ZeroDivisionError] on a
    zero divisor, [OverflowError] and [ValueError] from [int] on an infinity
    and a NaN).

    What lies outside the script is modelled as far as the script uses it:
    - the file system is a finite map from paths to directories and files,
      keyed by the parts of the path as written (no symbolic links, no
      [..]), so that [str(p)] names the file [p] names; for a path the map
      has nothing at, the world tells with which error number the lookup
      fails, since [Path.exists] takes only some of them for "not there";
    - the remote site is an oracle of the world, which answers a URL with
      its MP4 streams or with an exception;
    - MoviePy opens a file holding a video as a clip with a frame rate, a
      duration and a frame for every timestamp;
    - the history records every call that reaches outside and every
      assignment to a variable of the sampling plan, in the order of the
      statements of [main]. *)

From Stdlib Require Import ZArith QArith Qround Qpower Floats.SpecFloat Ascii String Lia.
From stdpp Require Import base numbers list list_numbers sorting strings pretty gmap fin_maps.

Local Open Scope Z_scope.

(** ** Python values *)

(** The exceptions the script can meet. *)
Inductive exn :=
  | ZeroDivisionError
  | OverflowError
  | ValueError
  | FileNotFoundError
  | NotADirectoryError
  | IsADirectoryError
  | FileExistsError
  | PermissionError
  | OSError
  | AttributeError
  | RemoteError (msg : string).

(** How the evaluation of an expression ends. *)
Inductive result (A : Type) :=
  | Ok (a : A)
  | Err (e : exn).
Arguments Ok {A} a.
Arguments Err {A} e.

Module PyFloat.

(** binary64 *)
Definition prec : Z := 53.
Definition emax : Z := 1024.

Definition float := spec_float.

Definition mul : float -> float -> float := SFmul prec emax.
Definition ltb : float -> float -> bool := SFltb.
Definition leb : float -> float -> bool := SFleb.

(** [float(n)] for an [int]: correctly rounded (to nearest, ties to even);
    an [int] beyond the largest float raises [OverflowError]. *)
Definition of_int (n : Z) : result float :=
  match binary_normalize prec emax n 0 false with
  | S754_infinity _ => Err OverflowError
  | x => Ok x
  end.

Definition is_zero (x : float) : bool :=
  match x with S754_zero _ => true | _ => false end.

(** [x / y] on floats: Python raises on a zero divisor, otherwise the
    quotient is IEEE's (it may overflow to an infinity, silently). *)
Definition truediv (x y : float) : result float :=
  if is_zero y then Err ZeroDivisionError else Ok (SFdiv prec emax x y).

(** [n / y] with [n] an [int]: [n] is converted first. *)
Definition int_truediv (n : Z) (y : float) : result float :=
  match of_int n with
  | Ok x => truediv x y
  | Err e => Err e
  end.

(** [int(x)]: truncation towards zero; no integer for an infinity or a NaN. *)
Definition to_int (x : float) : result Z :=
  match x with
  | S754_zero _ => Ok 0
  | S754_finite s m e => Ok (cond_Zopp s (Z.shiftl (Zpos m) e))
  | S754_infinity _ => Err OverflowError
  | S754_nan => Err ValueError
  end.

(** The rational number a float denotes, when it denotes one. *)
Definition to_Q (x : float) : option Q :=
  match x with
  | S754_zero _ => Some 0%Q
  | S754_finite s m e => Some (inject_Z (cond_Zopp s (Zpos m)) * (2 # 1) ^ e)%Q
  | _ => None
  end.

(** The mathematical floor of the number a float denotes. *)
Definition floor (x : float) : option Z :=
  match to_Q x with
  | Some q => Some (Qfloor q)
  | None => None
  end.

(** [0 < x <= 1], the comparison chain of the fraction check.  Python
    compares an [int] with a [float] by value; for 0 and 1 that is the
    comparison with the floats 0.0 and 1.0. *)
Definition zero : float := S754_zero false.
Definition one : float := S754_finite false 4503599627370496 (-52).

Definition in_unit_interval (x : float) : bool :=
  ltb zero x && leb x one.

End PyFloat.

(** ** Sampling plan (lines 55, 68, 69 of [main]) *)

(** [int(clip.fps * clip.duration)] *)
Definition total_frames_of (fps duration : PyFloat.float) : result Z :=
  PyFloat.to_int (PyFloat.mul fps duration).

(** [max(1, int(1 / perc_frames))] *)
Definition frame_step_of (perc_frames : PyFloat.float) : result Z :=
  match PyFloat.int_truediv 1 perc_frames with
  | Ok q =>
      match PyFloat.to_int q with
      | Ok n => Ok (Z.max 1 n)
      | Err e => Err e
      end
  | Err e => Err e
  end.

(** Python's [range] object: a lazy arithmetic progression. *)
Record range := Range { start : Z; stop : Z; step : Z }.

(** [range(start, stop, step)] refuses a zero step. *)
Definition py_range (lo hi st : Z) : result range :=
  if st =? 0 then Err ValueError else Ok (Range lo hi st).

(** [len(r)] *)
Definition range_len (r : range) : Z :=
  if (0 <? step r) && (start r <? stop r) then
    1 + (stop r - 1 - start r) / step r
  else if (step r <? 0) && (stop r <? start r) then
    1 + (start r - 1 - stop r) / (- step r)
  else 0.

(** [r[:k]]: the slice bounds are clamped against [len(r)], a negative [k]
    counting from the end, and the result is again a [range]. *)
Definition range_slice_to (r : range) (k : Z) : range :=
  let n := range_len r in
  let hi := if k <? 0 then Z.max 0 (k + n) else Z.min k n in
  Range (start r) (start r + hi * step r) (step r).

(** The values a [for] loop over [r] visits, in order. *)
Definition range_elems (r : range) : list Z :=
  (λ i, start r + i * step r) <$> seqZ 0 (range_len r).

(** [range(0, total_frames, frame_step)[:max_frames]] *)
Definition frame_indices_of (total_frames frame_step max_frames : Z) : result range :=
  match py_range 0 total_frames frame_step with
  | Ok r => Ok (range_slice_to r max_frames)
  | Err e => Err e
  end.

(** ** Paths ([pathlib.Path], POSIX flavour)

    A path is the tuple of its [parts]: the components between separators,
    empty and ["."] components dropped, preceded by the root (["/"] or
    ["//"]) when the path is absolute.  The empty tuple is the current
    directory, which prints as ["."]. *)

Definition Path := list string.

Fixpoint split_on (sep : ascii) (s : string) : list string :=
  match s with
  | EmptyString => [EmptyString]
  | String c s' =>
      if Ascii.eqb c sep then EmptyString :: split_on sep s'
      else match split_on sep s' with
           | [] => [String c EmptyString]
           | x :: xs => String c x :: xs
           end
  end.

Definition is_anchor (c : string) : bool :=
  bool_decide (c = "/" ∨ c = "//").

(** [Path(s)] *)
Definition path_of (s : string) : Path :=
  let anchor :=
    if String.prefix "///" s then ["/"]
    else if String.prefix "//" s then ["//"]
    else if String.prefix "/" s then ["/"]
    else [] in
  anchor ++ filter (λ c, c ≠ "" ∧ c ≠ ".") (split_on "/" s).

(** [p.parent] *)
Definition parent (p : Path) : Path :=
  match reverse p with
  | [] => []
  | c :: rest => if is_anchor c then p else reverse rest
  end.

(** [p.name] *)
Definition name (p : Path) : string :=
  match reverse p with
  | [] => ""
  | c :: _ => if is_anchor c then "" else c
  end.

(** [p / n] for a file name [n] without a separator, which is what both uses
    in the script pass. *)
Definition joinpath (p : Path) (n : string) : Path := p ++ [n].
Infix "</>" := joinpath (at level 40, left associativity).

Fixpoint rfind (c : ascii) (s : string) : option nat :=
  match s with
  | EmptyString => None
  | String a s' =>
      match rfind c s' with
      | Some i => Some (S i)
      | None => if Ascii.eqb a c then Some 0%nat else None
      end
  end.

(** [p.stem] of a file name: the name without its last suffix. *)
Definition stem (n : string) : string :=
  match rfind "." n with
  | Some i =>
      if ((0 <? i) && (i <? String.length n - 1))%nat then substring 0 i n else n
  | None => n
  end.

(** [p.with_suffix(suffix)]; Python raises [ValueError] on an empty name. *)
Definition with_suffix (p : Path) (suffix : string) : result Path :=
  match reverse p with
  | [] => Err ValueError
  | c :: rest =>
      if is_anchor c then Err ValueError
      else Ok (reverse rest ++ [stem c +:+ suffix])
  end.

(** [str(p)] *)
Definition str (p : Path) : string :=
  match p with
  | [] => "."
  | c :: rest => if is_anchor c then c +:+ String.concat "/" rest
                 else String.concat "/" p
  end.

(** ** The world the script runs in *)

(** A decoded frame: a height × width × channels array. *)
Definition Frame := list (list (list Z)).

(** What MoviePy exposes of an opened video. *)
Record Clip := {
  fps : PyFloat.float;
  duration : PyFloat.float;
  get_frame : PyFloat.float -> Frame
}.

Inductive content :=
  | Video (c : Clip)       (* a file MoviePy can open *)
  | Jpeg (img : Frame)     (* the JPEG encoding of an image *)
  | Other.                 (* anything else *)

Inductive node :=
  | Dir
  | File (c : content).

(** A stream the remote site offers for a video. *)
Record Stream := {
  progressive : bool;
  resolution : Z;
  fetch : result content        (* what downloading it yields *)
}.

(** Error numbers ([errno]) with which the lookup of a path fails. *)
Inductive errno :=
  | ENOENT          (* no such file or directory *)
  | ENOTDIR         (* a component of the path is not a directory *)
  | EBADF
  | ELOOP
  | EACCES          (* a directory on the way may not be searched *)
  | ENAMETOOLONG.   (* a component is longer than the file system allows *)

(** The exception Python raises for an error number: the subclass of
    [OSError] that belongs to it, [OSError] itself when there is none. *)
Definition os_error (n : errno) : exn :=
  match n with
  | ENOENT => FileNotFoundError
  | ENOTDIR => NotADirectoryError
  | EACCES => PermissionError
  | EBADF | ELOOP | ENAMETOOLONG => OSError
  end.

(** One step of a run that the outside can tell, or a value of the sampling
    plan being bound. *)
Inductive event :=
  | Print (line : string)
  | Connect (url : string)
  | Download (dest : Path)
  | Exists (p : Path)
  | Open (p : Path)
  | TotalFrames (n : Z)
  | FractionChecked (ok : bool)
  | Rmtree (p : Path)
  | Mkdir (p : Path)
  | FrameStep (n : Z)
  | FrameIndices (r : range)
  | GetFrame (t : PyFloat.float)
  | Save (p : Path).

Record World := {
  fs : gmap Path node;                       (* files and directories *)
  lookup_error : Path -> errno;              (* why a path not in [fs] is not found *)
  site : string -> result (list Stream);       (* MP4 streams behind a URL *)
  history : list event                       (* what happened so far *)
}.

Definition log (e : event) (w : World) : World :=
  {| fs := fs w; lookup_error := lookup_error w; site := site w;
     history := history w ++ [e] |}.

Definition set_fs (m : gmap Path node) (w : World) : World :=
  {| fs := m; lookup_error := lookup_error w; site := site w;
     history := history w |}.

(** The current directory and the roots always exist. *)
Definition node_at (m : gmap Path node) (p : Path) : option node :=
  match p with
  | [] => Some Dir
  | [c] => if is_anchor c then Some Dir else m !! p
  | _ => m !! p
  end.

(** ** Statements: a state monad with Python's three ways out *)

Inductive signal (A : Type) :=
  | Normal (a : A)       (* fell through to the next statement *)
  | Return               (* [return] *)
  | Raise (e : exn).     (* an exception is propagating *)
Arguments Normal {A} a.
Arguments Return {A}.
Arguments Raise {A} e.

Definition M (A : Type) : Type := World -> World * signal A.

Global Instance M_ret : MRet M := λ A a w, (w, Normal a).

Global Instance M_bind : MBind M := λ A B f m w,
  match m w with
  | (w', Normal a) => f a w'
  | (w', Return) => (w', Return)
  | (w', Raise e) => (w', Raise e)
  end.

Definition ret_early {A} : M A := λ w, (w, Return).

Definition raise {A} (e : exn) : M A := λ w, (w, Raise e).

(** [try: body except Exception as e: handler e] *)
Definition try_except {A} (body : M A) (handler : exn -> M A) : M A := λ w,
  match body w with
  | (w', Raise e) => handler e w'
  | r => r
  end.

(** An expression evaluated for its value. *)
Definition eval {A} (r : result A) : M A :=
  match r with
  | Ok a => mret a
  | Err e => raise e
  end.

(** An assignment to a variable of the sampling plan: the value is bound and
    the binding is recorded. *)
Definition compute {A} (ev : A -> event) (r : result A) : M A := λ w,
  match r with
  | Ok a => (log (ev a) w, Normal a)
  | Err e => (w, Raise e)
  end.

Fixpoint for_each {A} (l : list A) (body : A -> M unit) : M unit :=
  match l with
  | [] => mret tt
  | x :: l' => body x ;; for_each l' body
  end.

(** ** The library calls of the script *)

(** [print(line)] *)
Definition print (line : string) : M unit := λ w,
  (log (Print line) w, Normal tt).

(** [YouTube(url, ...).streams.filter(file_extension="mp4")]: one exchange
    with the remote site, which answers with the MP4 streams or fails. *)
Definition mp4_streams (url : string) : M (list Stream) := λ w,
  let w' := log (Connect url) w in
  match site w url with
  | Ok l => (w', Normal l)
  | Err e => (w', Raise e)
  end.

(** [streams.get_highest_resolution()]: the progressive stream of highest
    resolution, [None] when no stream is progressive. *)
Definition get_highest_resolution (l : list Stream) : option Stream :=
  foldl (λ best s,
           if progressive s then
             match best with
             | Some b => if resolution b <=? resolution s then Some s else best
             | None => Some s
             end
           else best) None l.

(** [stream.download(output_path=dir, filename=n)]; on [None] the attribute
    lookup fails before anything is fetched. *)
Definition download (s : option Stream) (dir : Path) (n : string) : M unit := λ w,
  match s with
  | None => (w, Raise AttributeError)
  | Some s =>
      let dest := dir </> n in
      let w' := log (Download dest) w in
      match fetch s with
      | Err e => (w', Raise e)
      | Ok c =>
          match node_at (fs w) dest with
          | Some Dir => (w', Raise IsADirectoryError)
          | _ => (set_fs (<[dest := File c]> (fs w)) w', Normal tt)
          end
      end
  end.

(** [os.stat(p)]: the node at [p], or the error number of the failed
    lookup.  (A path that cannot be encoded, for which Python raises
    [ValueError] and [exists] answers [False], counts as [ENOENT].) *)
Definition stat (p : Path) (w : World) : node + errno :=
  match node_at (fs w) p with
  | Some n => inl n
  | None => inr (lookup_error w p)
  end.

(** pathlib's [_ignore_error]: the error numbers of [_IGNORED_ERRNOS], which
    [exists] takes for "not there". *)
Definition ignore_error (n : errno) : bool :=
  match n with
  | ENOENT | ENOTDIR | EBADF | ELOOP => true
  | EACCES | ENAMETOOLONG => false
  end.

(** [p.exists()]: [True] when [p.stat()] succeeds, [False] when it fails with
    an error that is ignored; any other [OSError] is raised again. *)
Definition path_exists (p : Path) : M bool := λ w,
  let w' := log (Exists p) w in
  match stat p w with
  | inl _ => (w', Normal true)
  | inr n =>
      if ignore_error n then (w', Normal false) else (w', Raise (os_error n))
  end.

(** [VideoFileClip(str(p))]: MoviePy raises [OSError] on a missing or
    unreadable file. *)
Definition VideoFileClip (p : Path) : M Clip := λ w,
  let w' := log (Open p) w in
  match node_at (fs w) p with
  | Some (File (Video c)) => (w', Normal c)
  | _ => (w', Raise OSError)
  end.

(** [shutil.rmtree(p)]: the directory and everything below it go; a missing
    [p] raises. *)
Definition rmtree (p : Path) : M unit := λ w,
  let w' := log (Rmtree p) w in
  match node_at (fs w) p with
  | None => (w', Raise FileNotFoundError)
  | Some (File _) => (w', Raise NotADirectoryError)
  | Some Dir =>
      (set_fs (filter (λ kv, ¬ p `prefix_of` kv.1) (fs w)) w', Normal tt)
  end.

(** [p.mkdir()] *)
Definition mkdir (p : Path) : M unit := λ w,
  let w' := log (Mkdir p) w in
  match node_at (fs w) p with
  | Some _ => (w', Raise FileExistsError)
  | None =>
      match node_at (fs w) (parent p) with
      | Some Dir => (set_fs (<[p := Dir]> (fs w)) w', Normal tt)
      | Some (File _) => (w', Raise NotADirectoryError)
      | None => (w', Raise FileNotFoundError)
      end
  end.

(** [clip.get_frame(t)] *)
Definition clip_get_frame (c : Clip) (t : PyFloat.float) : M Frame := λ w,
  (log (GetFrame t) w, Normal (get_frame c t)).

(** [Image.fromarray(img).save(str(p))] with [p] ending in [.jpg]: the image
    is encoded as JPEG and written, replacing a file already there. *)
Definition save (img : Frame) (p : Path) : M unit := λ w,
  let w' := log (Save p) w in
  match node_at (fs w) p with
  | Some Dir => (w', Raise IsADirectoryError)
  | _ =>
      match node_at (fs w) (parent p) with
      | Some Dir => (set_fs (<[p := File (Jpeg img)]> (fs w)) w', Normal tt)
      | Some (File _) => (w', Raise NotADirectoryError)
      | None => (w', Raise FileNotFoundError)
      end
  end.

(** [f"{e}"] for a caught exception. *)
Definition exn_str (e : exn) : string :=
  match e with
  | RemoteError msg => msg
  | AttributeError => "'NoneType' object has no attribute 'download'"
  | IsADirectoryError => "[Errno 21] Is a directory"
  | FileNotFoundError => "[Errno 2] No such file or directory"
  | NotADirectoryError => "[Errno 20] Not a directory"
  | FileExistsError => "[Errno 17] File exists"
  | PermissionError => "[Errno 13] Permission denied"
  | ZeroDivisionError => "float division by zero"
  | OverflowError => "cannot convert float infinity to integer"
  | ValueError => "cannot convert float NaN to integer"
  | OSError => "MoviePy error"
  end.

Definition is_url (path : string) : bool :=
  String.prefix "http://" path || String.prefix "https://" path.

(** ** The script *)

(** Lines 22-51 of [main]: the input is turned into the path of a local
    video file, or the run ends with a message; the test of a local path is
    outside any [try], so what [exists] raises ends the run. *)
Definition resolve_input (path : string) : M Path :=
  if is_url path then
    try_except
      (print "Downloading video from YouTube..." ;;
       video_streams ← mp4_streams path;
       match video_streams with
       | [] =>
           print "Error: No suitable MP4 video stream found." ;;
           ret_early
       | _ =>
           let video_stream := get_highest_resolution video_streams in
           let video_path := path_of "downloaded_video" in
           download video_stream (parent video_path) (name video_path) ;;
           print ("Downloaded video to " +:+ str video_path) ;;
           eval (with_suffix video_path ".mp4")
       end)
      (λ e,
         print ("Error downloading video: " +:+ exn_str e) ;;
         ret_early)
  else
    let path := path_of path in
    found ← path_exists path;
    if negb found then
      print "Error: File does not exist." ;;
      ret_early
    else mret path.

(** Lines 74-81 of [main]: the body of the extraction loop. *)
Definition extract_frame (clip : Clip) (output_dir : Path) (fnum : Z) : M unit :=
  frame_time ← eval (PyFloat.int_truediv fnum (fps clip));
  frame_image ← clip_get_frame clip frame_time;
  let target := output_dir </> (pretty fnum +:+ ".jpg") in
  save frame_image target.

(** Lines 62-83 of [main]: what runs once the fraction has been accepted. *)
Definition sample_frames (path : Path) (clip : Clip) (total_frames : Z)
    (perc_frames : PyFloat.float) (max_frames : Z) : M unit :=
  let output_dir := parent path </> "images" in
  rmtree output_dir ;;
  mkdir output_dir ;;
  frame_step ← compute FrameStep (frame_step_of perc_frames);
  frame_indices ←
    compute FrameIndices (frame_indices_of total_frames frame_step max_frames);
  print ("Extracting frames to " +:+ str output_dir +:+ "...") ;;
  for_each (range_elems frame_indices) (extract_frame clip output_dir) ;;
  print ("Frame extraction complete. " +:+ pretty (range_len frame_indices)
         +:+ " frames saved in " +:+ str output_dir +:+ ".").

Definition main (path : string) (perc_frames : PyFloat.float) (max_frames : Z)
  : M unit :=
  path ← resolve_input path;
  clip ← VideoFileClip path;
  total_frames ← compute TotalFrames (total_frames_of (fps clip) (duration clip));
  valid ← compute FractionChecked (Ok (PyFloat.in_unit_interval perc_frames));
  if negb valid then
    print "Error: perc_frames must be between 0 and 1." ;;
    ret_early
  else
    sample_frames path clip total_frames perc_frames max_frames.

(** ** Vocabulary of the specification *)

(** Every index from 0 up to [total], excluded, in steps of [stride]. *)
Definition strided (total stride : Z) : list Z :=
  filter (λ i, i `mod` stride = 0) (seqZ 0 total).

(** The fixed file the download is asked to write. *)
Definition downloaded_video : Path := ["downloaded_video"].

(** The input is a local path that [exists] cannot answer for: nothing is
    found at it, and the lookup fails with an error that is not ignored, which
    is the exception [e]. *)
Definition lookup_refused (w : World) (path : string) (e : exn) : Prop :=
  is_url path = false
  ∧ node_at (fs w) (path_of path) = None
  ∧ ignore_error (lookup_error w (path_of path)) = false
  ∧ e = os_error (lookup_error w (path_of path)).

(** The events a run added to the history of the world it started in. *)
Definition new_events (w w' : World) : list event :=
  drop (length (history w)) (history w').

Definition is_error_line (line : string) : bool := String.prefix "Error" line.

(** The last thing that happened is an error message on the output. *)
Definition reports_error (evs : list event) : Prop :=
  ∃ line, last evs = Some (Print line) ∧ is_error_line line = true.

Definition is_connect (e : event) : bool :=
  match e with Connect _ => true | _ => false end.

Definition is_download (e : event) : bool :=
  match e with Download _ => true | _ => false end.

(** Events that destroy, create or fill a directory, or decode a frame. *)
Definition touches_output (e : event) : bool :=
  match e with
  | Rmtree _ | Mkdir _ | GetFrame _ | Save _ => true
  | _ => false
  end.

(** The ways fetching a URL can fail once the site is asked: the site cannot
    be queried, no stream can be picked, the transfer breaks, or the file
    cannot be written. *)
Inductive fetch_fails (w : World) (url : string) : Prop :=
  | query_fails e :
      site w url = Err e → fetch_fails w url
  | nothing_to_pick l :
      site w url = Ok l → get_highest_resolution l = None → l ≠ [] →
      fetch_fails w url
  | transfer_fails l s e :
      site w url = Ok l → get_highest_resolution l = Some s → fetch s = Err e →
      fetch_fails w url
  | cannot_write l s c :
      site w url = Ok l → get_highest_resolution l = Some s → fetch s = Ok c →
      node_at (fs w) downloaded_video = Some Dir →
      fetch_fails w url.

(** The stage of the pipeline a step belongs to, in the order the script
    runs them; output lines belong to none. *)
Inductive stage :=
  | InputResolution
  | OpenVideo
  | Validation
  | OutputDirectory
  | Sampling
  | Extraction.

Definition stage_rank (s : stage) : nat :=
  match s with
  | InputResolution => 0
  | OpenVideo => 1
  | Validation => 2
  | OutputDirectory => 3
  | Sampling => 4
  | Extraction => 5
  end.

Definition stage_of (e : event) : option stage :=
  match e with
  | Print _ => None
  | Connect _ | Download _ | Exists _ => Some InputResolution
  | Open _ | TotalFrames _ => Some OpenVideo
  | FractionChecked _ => Some Validation
  | Rmtree _ | Mkdir _ => Some OutputDirectory
  | FrameStep _ | FrameIndices _ => Some Sampling
  | GetFrame _ | Save _ => Some Extraction
  end.

(** The stages a history goes through, as ranks. *)
Definition stages (evs : list event) : list nat :=
  omap (λ e, stage_rank <$> stage_of e) evs.

(** A directory that exists and has nothing in it. *)
Definition empty_dir (m : gmap Path node) (d : Path) : Prop :=
  m !! d = Some Dir ∧ ∀ q, d `prefix_of` q → q ≠ d → m !! q = None.

(** [p] is a video file MoviePy opens as [clip], in a folder that exists. *)
Definition holds_video (m : gmap Path node) (p : Path) (clip : Clip) : Prop :=
  node_at m p = Some (File (Video clip)) ∧ node_at m (parent p) = Some Dir.

(** [<output_dir>/<index>.jpg] *)
Definition frame_file (output_dir : Path) (fnum : Z) : Path :=
  output_dir </> (pretty fnum +:+ ".jpg").

(** The timestamp of a frame index, [index / fps], where Python computes one;
    NaN stands for the cases in which the division raises. *)
Definition frame_time (clip : Clip) (fnum : Z) : PyFloat.float :=
  match PyFloat.int_truediv fnum (fps clip) with
  | Ok t => t
  | Err _ => S754_nan
  end.

(** The JPEG file written for a frame index. *)
Definition frame_jpeg (clip : Clip) (fnum : Z) : node :=
  File (Jpeg (get_frame clip (frame_time clip fnum))).

(** What the extraction loop does to the file system and to the history. *)
Definition write_frames (clip : Clip) (output_dir : Path) (l : list Z)
    (m : gmap Path node) : gmap Path node :=
  foldl (λ m i, <[frame_file output_dir i := frame_jpeg clip i]> m) m l.

Definition frame_events (clip : Clip) (output_dir : Path) (l : list Z) : list event :=
  l ≫= λ i, [GetFrame (frame_time clip i); Save (frame_file output_dir i)].

(** The messages around the extraction loop. *)
Definition extracting_line (d : Path) : string :=
  "Extracting frames to " +:+ str d +:+ "...".
Definition complete_line (count : Z) (d : Path) : string :=
  "Frame extraction complete. " +:+ pretty count +:+ " frames saved in "
  +:+ str d +:+ ".".

(** The files the [Save] steps of a history wrote, in order. *)
Definition saved_files (evs : list event) : list Path :=
  omap (λ e, match e with Save q => Some q | _ => None end) evs.

(** No output line of the history is an error message. *)
Definition no_error_reported (evs : list event) : Prop :=
  Forall (λ e, match e with Print line => is_error_line line = false | _ => True end) evs.

(** The stages of a history never go back, and all lie between two ranks. *)
Definition in_order (lo hi : nat) (evs : list event) : Prop :=
  StronglySorted le (stages evs) ∧ Forall (λ k, (lo ≤ k ≤ hi)%nat) (stages evs).

(** Whatever a statement does, it adds to the history, in order, steps of the
    stages between two ranks. *)
Definition emits {A} (lo hi : nat) (m : M A) : Prop :=
  ∀ w, ∃ evs, history (m w).1 = history w ++ evs ∧ in_order lo hi evs.

(** ** Sample inputs *)

Module Sample.

(** 10.0, 0.5, 1.5, the float nearest to 0.1 (the default fraction) and the
    smallest positive float, 5e-324 *)
Definition ten : PyFloat.float := S754_finite false 5629499534213120 (-49).
Definition tenth : PyFloat.float := S754_finite false 7205759403792794 (-56).
Definition half : PyFloat.float := S754_finite false 4503599627370496 (-53).
Definition one_and_half : PyFloat.float := S754_finite false 6755399441055744 (-52).
Definition tiny : PyFloat.float := S754_finite false 1 (-1074).

(** A one second clip at 10 frames per second; frame [t] is a single pixel
    holding the mantissa of its timestamp. *)
Definition clip : Clip := {|
  fps := ten;
  duration := PyFloat.one;
  get_frame t := match t with S754_finite _ m _ => [[[Z.pos m]]] | _ => [[[0]]] end
|}.

Definition offline : string -> result (list Stream) :=
  λ _, Err (RemoteError "offline").

(** Lookups on an ordinary Linux file system: a file name of more than
    [NAME_MAX] bytes is refused, whatever else is not found is not there. *)
Definition NAME_MAX : nat := 255.

Definition plain_lookup (p : Path) : errno :=
  if bool_decide (Forall (λ c, (String.length c ≤ NAME_MAX)%nat) p)
  then ENOENT else ENAMETOOLONG.

(** [video.mp4] next to an [images] folder left by an earlier run. *)
Definition second_run : World := {|
  fs := {[ ["video.mp4"] := File (Video clip);
           ["images"] := Dir;
           ["images"; "7.jpg"] := File Other ]};
  lookup_error := plain_lookup;
  site := offline;
  history := []
|}.

(** [video.mp4] alone: no run has made the [images] folder yet. *)
Definition first_run : World := {|
  fs := {[ ["video.mp4"] := File (Video clip) ]};
  lookup_error := plain_lookup;
  site := offline;
  history := []
|}.

(** A file that is not a video. *)
Definition not_a_video : World := {|
  fs := {[ ["notes.txt"] := File Other ]};
  lookup_error := plain_lookup;
  site := offline;
  history := []
|}.

End Sample.

(** ** Vocabulary of the further properties *)

(** A statement leaves alone whatever is not below [d]. *)
Definition keeps {A} (d : Path) (m : M A) : Prop :=
  ∀ w q, ¬ d `prefix_of` q → fs (m w).1 !! q = fs w !! q.

(** A statement never ends by [return], and when it falls through the world
    satisfies [P]. *)
Definition exits {A} (P : World → Prop) (m : M A) : Prop :=
  ∀ w, match m w with
       | (w', Normal _) => P w'
       | (_, Return) => False
       | (_, Raise _) => True
       end.

(** ** More sample inputs *)

Module Edge.

(** A clip of no duration. *)
Definition still : Clip := {|
  fps := Sample.ten;
  duration := PyFloat.zero;
  get_frame _ := [[[0]]]
|}.

(** [still.mp4] next to an [images] folder with an old file in it. *)
Definition still_video : World := {|
  fs := {[ ["still.mp4"] := File (Video still);
           ["images"] := Dir;
           ["images"; "0.jpg"] := File Other ]};
  lookup_error := Sample.plain_lookup;
  site := Sample.offline;
  history := []
|}.

(** [video.mp4] next to a regular file called [images], and another file. *)
Definition images_is_a_file : World := {|
  fs := {[ ["video.mp4"] := File (Video Sample.clip);
           ["images"] := File Other;
           ["notes.txt"] := File Other ]};
  lookup_error := Sample.plain_lookup;
  site := Sample.offline;
  history := []
|}.

(** A site with two progressive streams and an adaptive one of higher
    resolution; every download works. *)
Definition streams : list Stream :=
  [ {| progressive := true; resolution := 360; fetch := Ok (Video Sample.clip) |};
    {| progressive := false; resolution := 1080; fetch := Ok (Video Sample.clip) |};
    {| progressive := true; resolution := 720; fetch := Ok (Video Sample.clip) |} ].

(** 25.0 and the float nearest to 0.12 *)
Definition twenty_five : PyFloat.float := S754_finite false 7036874417766400 (-48).
Definition twelve_hundredths : PyFloat.float :=
  S754_finite false 8646911284551352 (-56).

(** A clip of 0.12 seconds at 25 frames per second, beside an [images]
    folder. *)
Definition three_frames : Clip := {|
  fps := twenty_five;
  duration := twelve_hundredths;
  get_frame _ := [[[0]]]
|}.

Definition short_video : World := {|
  fs := {[ ["video.mp4"] := File (Video three_frames); ["images"] := Dir ]};
  lookup_error := Sample.plain_lookup;
  site := Sample.offline;
  history := []
|}.

(** A file name of 300 letters, more than any file system takes. *)
Definition long_name : string := String.concat "" (replicate 300 "a").

Definition online : World := {|
  fs := {[ ["images"] := Dir ]};
  lookup_error := Sample.plain_lookup;
  site := λ _, Ok streams;
  history := []
|}.

End Edge.

(** * Properties

    ** Floats: truncation against floor *)

Lemma Qpower_two_pos (p : positive) :
  ((2 # 1) ^ Z.pos p == inject_Z (Z.pos (2 ^ p)))%Q.
Proof.
  rewrite Pos2Z.inj_pow. symmetry. apply (Zpower_Qpower 2 (Z.pos p)). lia.
Qed.

Lemma Qfloor_scale (z e : Z) :
  Qfloor (inject_Z z * (2 # 1) ^ e) = Z.shiftl z e.
Proof.
  destruct e as [|p|p].
  - rewrite Z.shiftl_0_r. rewrite <- (Qfloor_Z z) at 2.
    apply Qfloor_comp. simpl. apply Qmult_1_r.
  - rewrite Z.shiftl_mul_pow2 by lia.
    rewrite <- (Qfloor_Z (z * 2 ^ Z.pos p)).
    apply Qfloor_comp.
    rewrite inject_Z_mult, Qpower_two_pos, Pos2Z.inj_pow. reflexivity.
  - change (Z.neg p) with (- Z.pos p)%Z.
    rewrite Z.shiftl_opp_r, Z.shiftr_div_pow2 by lia.
    transitivity (Qfloor (z # (2 ^ p)%positive)).
    + apply Qfloor_comp. rewrite Qpower_opp, Qpower_two_pos.
      symmetry. apply Qmake_Qdiv.
    + simpl. rewrite Pos2Z.inj_pow. reflexivity.
Qed.

Lemma binary_round_aux_sign s m e l :
  match binary_round_aux PyFloat.prec PyFloat.emax s m e l with
  | S754_zero s' | S754_infinity s' | S754_finite s' _ _ => s' = s
  | S754_nan => True
  end.
Proof.
  unfold binary_round_aux.
  destruct (shr_fexp _ _ m e l) as [mrs' e'].
  destruct (shr_fexp _ _ _ e' loc_Exact) as [mrs'' e''].
  destruct (shr_m mrs''); [done | | done].
  by destruct (e'' <=? _).
Qed.

Lemma to_int_floor_nonneg m e :
  PyFloat.to_int (S754_finite false m e) = Ok (Z.shiftl (Z.pos m) e)
  ∧ PyFloat.floor (S754_finite false m e) = Some (Z.shiftl (Z.pos m) e).
Proof.
  split; [done|]. unfold PyFloat.floor, PyFloat.to_Q.
  by rewrite Qfloor_scale.
Qed.

Lemma to_int_floor_max q n :
  PyFloat.floor q = Some n →
  ∃ k, PyFloat.to_int q = Ok k ∧ Z.max 1 k = Z.max 1 n.
Proof.
  unfold PyFloat.floor, PyFloat.to_Q, PyFloat.to_int.
  destruct q as [s|s| |s m e]; try done.
  - intros [= <-]. by exists 0.
  - rewrite Qfloor_scale. intros [= <-].
    eexists; split; [done|]. destruct s; cbn [cond_Zopp]; [|done].
    change (- Z.pos m) with (Z.neg m).
    assert (0 ≤ Z.shiftl (Z.pos m) e) by (apply Z.shiftl_nonneg; lia).
    assert (¬ 0 ≤ Z.shiftl (Z.neg m) e) by (rewrite Z.shiftl_nonneg; lia).
    lia.
Qed.

Lemma in_unit_interval_finite p :
  PyFloat.in_unit_interval p = true → ∃ m e, p = S754_finite false m e.
Proof.
  unfold PyFloat.in_unit_interval. intros [Hlt Hle]%andb_true_iff.
  destruct p as [s|[]| |[] m e]; try discriminate Hlt; try discriminate Hle.
  eauto.
Qed.

(** C2, as amended.  For every fraction in (0, 1] whose reciprocal is finite,
    the frame step the program computes is max(1, floor(1 / fraction)).  Here
    1 / fraction is the quotient Python computes, rounded to the nearest
    binary64 value, and its floor is the floor of the rational number that
    value denotes. *)
Theorem frame_step_is_floor_of_reciprocal p n :
  PyFloat.in_unit_interval p = true →
  PyFloat.floor (SFdiv PyFloat.prec PyFloat.emax PyFloat.one p) = Some n →
  frame_step_of p = Ok (Z.max 1 n).
Proof.
  intros Hp Hn. destruct (in_unit_interval_finite p Hp) as (m & e & ->).
  unfold frame_step_of, PyFloat.int_truediv.
  change (PyFloat.of_int 1) with (Ok PyFloat.one).
  unfold PyFloat.truediv. cbn [PyFloat.is_zero].
  destruct (to_int_floor_max _ _ Hn) as (k & -> & ->). done.
Qed.

(** The step for the fraction 0.5 is 2. *)
Lemma frame_step_is_floor_of_reciprocal_witness :
  frame_step_of Sample.half = Ok (Z.max 1 2).
Proof.
  apply (frame_step_is_floor_of_reciprocal Sample.half 2); reflexivity.
Defined.

(** C2, the claim as stated fails.  5e-324 lies in (0, 1], yet 1 / 5e-324
    overflows to infinity, which has no floor; [int] raises [OverflowError]
    and the run stops without a frame step, after the output directory was
    recreated. *)
Lemma frame_step_tiny_fraction_raises :
  PyFloat.in_unit_interval Sample.tiny = true
  ∧ PyFloat.floor (SFdiv PyFloat.prec PyFloat.emax PyFloat.one Sample.tiny) = None
  ∧ frame_step_of Sample.tiny = Err OverflowError
  ∧ (main "video.mp4" Sample.tiny 180 Sample.second_run).2 = Raise OverflowError.
Proof. by vm_compute. Qed.

(** The quotient is the rounded one: for the float nearest to 0.1 Python's
    1 / 0.1 is exactly 10.0 and the step is 10, although that float is a
    little above one tenth and the floor of its exact reciprocal is 9. *)
Lemma default_fraction_step :
  frame_step_of Sample.tenth = Ok 10
  ∧ PyFloat.floor (SFdiv PyFloat.prec PyFloat.emax PyFloat.one Sample.tenth) = Some 10
  ∧ ∃ q, PyFloat.to_Q Sample.tenth = Some q ∧ Qfloor (/ q) = 9.
Proof. split; [done|]. split; [done|]. eexists. split; [done|]. by vm_compute. Qed.

(** ** Ranges: stepping and slicing *)

Lemma range_len_from_zero total stride :
  1 ≤ stride →
  range_len (Range 0 total stride) = if 0 <? total then 1 + (total - 1) / stride else 0.
Proof.
  intros Hs. unfold range_len; simpl.
  destruct (Z.ltb_spec 0 stride); [|lia].
  destruct (Z.ltb_spec 0 total); simpl.
  - by rewrite Z.sub_0_r.
  - by destruct (Z.ltb_spec stride 0); simpl; [lia|].
Qed.

Lemma range_len_multiple n stride :
  1 ≤ stride → 0 ≤ n → range_len (Range 0 (n * stride) stride) = n.
Proof.
  intros Hs Hn. rewrite range_len_from_zero by done.
  destruct (Z.ltb_spec 0 (n * stride)).
  - assert (1 ≤ n) by nia.
    replace (n * stride - 1) with ((n - 1) * stride + (stride - 1)) by lia.
    rewrite Z.div_add_l by lia. rewrite Z.div_small by lia. lia.
  - nia.
Qed.

Lemma strided_range total stride :
  1 ≤ stride →
  strided total stride
  = (λ i, i * stride) <$> seqZ 0 (range_len (Range 0 total stride)).
Proof.
  intros Hs. unfold strided. rewrite range_len_from_zero by done.
  destruct (Z.le_gt_cases total 0) as [Hneg|Hpos].
  { destruct (Z.ltb_spec 0 total); [lia|]. by rewrite !seqZ_nil by lia. }
  rewrite <- (Z2Nat.id total) by lia. clear Hpos.
  induction (Z.to_nat total) as [|t IH]; [done|].
  rewrite seqZ_S, filter_app, IH, Z.add_0_l. clear IH.
  set (T := Z.of_nat t). assert (0 ≤ T) by lia.
  replace (Z.of_nat (S t)) with (T + 1) by lia.
  destruct (Z.ltb_spec 0 (T + 1)); [|lia].
  replace (T + 1 - 1) with T by lia.
  pose proof (Z.div_mod T stride ltac:(lia)) as Hdm.
  pose proof (Z.mod_pos_bound T stride ltac:(lia)) as Hb.
  rewrite filter_cons, filter_nil.
  destruct (decide (T `mod` stride = 0)) as [Hm|Hm].
  - assert (Hk : (if 0 <? T then 1 + (T - 1) / stride else 0) = T / stride).
    { destruct (Z.ltb_spec 0 T).
      - replace (T - 1) with ((T / stride - 1) * stride + (stride - 1)) by lia.
        rewrite Z.div_add_l by lia. rewrite (Z.div_small (stride - 1)) by lia. lia.
      - replace T with 0 by lia. done. }
    rewrite Hk.
    replace (1 + T / stride) with (Z.succ (T / stride)) by lia.
    assert (0 ≤ T / stride) by (apply Z.div_pos; lia).
    rewrite <- (Z2Nat.id (T / stride)) at 2 by done.
    rewrite <- Nat2Z.inj_succ, seqZ_S, fmap_app. simpl.
    rewrite Z2Nat.id by done. do 2 f_equal.
    rewrite Hm, Z.add_0_r in Hdm. by rewrite Z.add_0_l, Z.mul_comm.
  - rewrite app_nil_r. destruct (Z.ltb_spec 0 T);
      [|by destruct Hm; replace T with 0 by lia].
    do 2 f_equal.
    replace (T - 1) with (T / stride * stride + (T `mod` stride - 1)) by lia.
    rewrite Z.div_add_l by lia. rewrite (Z.div_small (_ - 1)) by lia. lia.
Qed.

Lemma range_len_nonneg r : 0 ≤ range_len r.
Proof.
  unfold range_len.
  destruct (Z.ltb_spec 0 (step r)), (Z.ltb_spec (start r) (stop r)),
    (Z.ltb_spec (step r) 0), (Z.ltb_spec (stop r) (start r)); simpl; try lia.
  - pose proof (Z.div_pos (stop r - 1 - start r) (step r)). lia.
  - pose proof (Z.div_pos (start r - 1 - stop r) (- step r)). lia.
Qed.

Lemma take_seqZ n m len :
  take n (seqZ m len) = seqZ m (Z.min (Z.of_nat n) len).
Proof.
  unfold seqZ. rewrite <- fmap_take, take_seq. do 2 f_equal. lia.
Qed.

Lemma range_elems_slice total stride k :
  1 ≤ stride →
  range_elems (range_slice_to (Range 0 total stride) k)
  = take (Z.to_nat (if k <? 0 then k + range_len (Range 0 total stride) else k))
         (strided total stride).
Proof.
  intros Hs. rewrite strided_range by done.
  pose proof (range_len_nonneg (Range 0 total stride)) as HN.
  set (N := range_len (Range 0 total stride)) in *.
  unfold range_elems, range_slice_to. fold N. cbn [start stop step].
  rewrite Z.add_0_l, range_len_multiple by (destruct (Z.ltb_spec k 0); lia).
  rewrite <- fmap_take, take_seqZ.
  clearbody N. replace (Z.min (Z.of_nat _) N) with (if k <? 0 then Z.max 0 (k + N) else Z.min k N)
    by (destruct (Z.ltb_spec k 0); lia).
  apply list_fmap_ext. intros _ i _. lia.
Qed.

Lemma frame_indices_of_ok total stride k :
  1 ≤ stride →
  frame_indices_of total stride k = Ok (range_slice_to (Range 0 total stride) k).
Proof.
  intros Hs. unfold frame_indices_of, py_range.
  by destruct (Z.eqb_spec stride 0); [lia|].
Qed.

Lemma frame_step_of_ge_1 p s : frame_step_of p = Ok s → 1 ≤ s.
Proof.
  unfold frame_step_of. destruct (PyFloat.int_truediv 1 p) as [q|]; [|done].
  destruct (PyFloat.to_int q); [|done]. intros [= <-]. lia.
Qed.

Lemma sampled_index_bounds total stride k i :
  1 ≤ stride →
  i ∈ range_elems (range_slice_to (Range 0 total stride) k) → 0 ≤ i < total.
Proof.
  intros Hs. rewrite range_elems_slice by done.
  intros Hi%subseteq_take. unfold strided in Hi.
  apply list_elem_of_filter in Hi as [_ Hi]. apply elem_of_seqZ in Hi. lia.
Qed.

Lemma length_range_elems r : Z.of_nat (length (range_elems r)) = range_len r.
Proof.
  unfold range_elems. rewrite length_fmap, length_seqZ.
  pose proof (range_len_nonneg r). lia.
Qed.

Lemma length_strided total stride :
  1 ≤ stride →
  Z.of_nat (length (strided total stride)) = range_len (Range 0 total stride).
Proof.
  intros Hs. rewrite strided_range, length_fmap, length_seqZ by done.
  pose proof (range_len_nonneg (Range 0 total stride)). lia.
Qed.

(** C3, as amended.  For every total frame count, every stride (a stride is
    at least 1) and every maximum frame count that is not negative, the
    sampled frame indices are every index from 0 up to the total frame count,
    excluded, in steps of the stride, truncated to at most the maximum count;
    in particular, with 10 frames in total, a cap of 3 and the fraction 1.0
    (stride 1) exactly the indices 0, 1, 2 are selected. *)
Theorem frame_indices_are_strided_then_capped total stride max_frames :
  1 ≤ stride → 0 ≤ max_frames →
  (∃ r, frame_indices_of total stride max_frames = Ok r
        ∧ range_elems r = take (Z.to_nat max_frames) (strided total stride))
  ∧ frame_step_of PyFloat.one = Ok 1
  ∧ (∃ r, frame_indices_of 10 1 3 = Ok r ∧ range_elems r = [0; 1; 2]).
Proof.
  intros Hs Hmax. split; [|split; [done|by eexists]].
  eexists. split; [by apply frame_indices_of_ok|].
  rewrite range_elems_slice by done.
  by destruct (Z.ltb_spec max_frames 0); [lia|].
Qed.

(** Ten frames, stride 3, at most 2 of them. *)
Lemma frame_indices_are_strided_then_capped_witness :
  (∃ r, frame_indices_of 10 3 2 = Ok r
        ∧ range_elems r = take (Z.to_nat 2) (strided 10 3))
  ∧ frame_step_of PyFloat.one = Ok 1
  ∧ (∃ r, frame_indices_of 10 1 3 = Ok r ∧ range_elems r = [0; 1; 2]).
Proof. apply (frame_indices_are_strided_then_capped 10 3 2); lia. Defined.

(** C3, the claim as stated fails.  With the maximum frame count -1 the slice
    drops the last index only: of 10 frames 9 are sampled, which is more than
    the maximum and not the truncation to it. *)
Lemma negative_max_frames_is_no_cap :
  ∃ r, frame_indices_of 10 1 (-1) = Ok r
       ∧ range_elems r = [0; 1; 2; 3; 4; 5; 6; 7; 8]
       ∧ ¬ Z.of_nat (length (range_elems r)) ≤ -1
       ∧ range_elems r ≠ take (Z.to_nat (-1)) (strided 10 1).
Proof. eexists. split; [done|]. split; [done|]. split; [simpl; lia|done]. Qed.

(** ** Running the script *)

Ltac run :=
  unfold eval, compute, print, ret_early, raise, mbind, M_bind, mret, M_ret;
  cbv beta iota.

Lemma history_snoc (l l0 evs : list event) e :
  l = l0 ++ evs → l ++ [e] = l0 ++ (evs ++ [e]).
Proof. intros ->. by rewrite app_assoc. Qed.

Ltac history :=
  cbn [history fs site log set_fs];
  repeat (eapply history_snoc); symmetry; apply app_nil_r.

Lemma new_events_app w w' evs :
  history w' = history w ++ evs → new_events w w' = evs.
Proof. intros H. unfold new_events. by rewrite H, drop_app_length. Qed.

Lemma resolve_input_local w path :
  is_url path = false →
  resolve_input path w =
    let p := path_of path in
    match node_at (fs w) p with
    | Some _ => (log (Exists p) w, Normal p)
    | None =>
        if ignore_error (lookup_error w p)
        then (log (Print "Error: File does not exist.") (log (Exists p) w), Return)
        else (log (Exists p) w, Raise (os_error (lookup_error w p)))
    end.
Proof.
  intros Hurl. unfold resolve_input. rewrite Hurl. run.
  unfold path_exists, stat.
  destruct (node_at _ _); [done|]. by destruct (ignore_error _).
Qed.

Lemma resolve_input_found w path n :
  is_url path = false →
  node_at (fs w) (path_of path) = Some n →
  resolve_input path w = (log (Exists (path_of path)) w, Normal (path_of path)).
Proof. intros Hurl Hn. rewrite resolve_input_local by done. cbv zeta. by rewrite Hn. Qed.

Lemma resolve_input_url w url :
  is_url url = true →
  resolve_input url w =
    let w1 := log (Connect url) (log (Print "Downloading video from YouTube...") w) in
    match site w url with
    | Err e => (log (Print ("Error downloading video: " +:+ exn_str e)) w1, Return)
    | Ok [] => (log (Print "Error: No suitable MP4 video stream found.") w1, Return)
    | Ok l =>
        match get_highest_resolution l with
        | None =>
            (log (Print ("Error downloading video: " +:+ exn_str AttributeError)) w1,
             Return)
        | Some s =>
            let w2 := log (Download downloaded_video) w1 in
            match fetch s with
            | Err e => (log (Print ("Error downloading video: " +:+ exn_str e)) w2, Return)
            | Ok c =>
                match node_at (fs w) downloaded_video with
                | Some Dir =>
                    (log (Print ("Error downloading video: "
                                 +:+ exn_str IsADirectoryError)) w2, Return)
                | _ =>
                    (log (Print "Downloaded video to downloaded_video")
                       (set_fs (<[downloaded_video := File c]> (fs w)) w2),
                     Normal ["downloaded_video.mp4"])
                end
            end
        end
    end.
Proof.
  intros Hurl. unfold resolve_input. rewrite Hurl.
  unfold try_except. run. unfold mp4_streams. cbn [site log].
  destruct (site w url) as [[|s0 l]|e]; [done| |done].
  unfold download.
  change (parent (path_of "downloaded_video") </> name (path_of "downloaded_video"))
    with downloaded_video.
  destruct (get_highest_resolution (s0 :: l)) as [s|]; [|done].
  destruct (fetch s) as [c|e]; [|done].
  cbn [fs log].
  destruct (node_at (fs w) downloaded_video) as [[|?]|]; done.
Qed.

Lemma resolve_input_outcome w path :
  ∃ w1 s evs,
    resolve_input path w = (w1, s)
    ∧ history w1 = history w ++ evs
    ∧ Forall (λ e, stage_of e = None ∨ stage_of e = Some InputResolution) evs
    ∧ (∀ q, q ≠ downloaded_video → fs w1 !! q = fs w !! q)
    ∧ site w1 = site w
    ∧ match s with
      | Normal _ => no_error_reported evs
      | Return => reports_error evs ∧ fs w1 = fs w
      | Raise e =>
          w1 = log (Exists (path_of path)) w ∧ evs = [Exists (path_of path)]
          ∧ lookup_refused w path e
      end.
Proof.
  assert (Hne : ∀ (m : gmap Path node) c q,
             q ≠ downloaded_video → <[downloaded_video := c]> m !! q = m !! q).
  { intros. by rewrite lookup_insert_ne. }
  destruct (is_url path) eqn:Hurl.
  - rewrite resolve_input_url by done. cbv zeta.
    destruct (site w path) as [[|s0 l]|e] eqn:Hsite;
      [|destruct (get_highest_resolution _) as [s|];
        [destruct (fetch s) as [c|e]; [destruct (node_at _ _) as [[|?]|]|]|]|];
      (eexists _, _, _; split; [reflexivity|]; split; [history|];
       split; [simpl; repeat (apply Forall_cons_2; [by auto|]); apply Forall_nil_2|]; split; [intros q Hq; cbn [fs log set_fs]; by rewrite ?Hne|]; split; [done|]);
      cbv beta iota;
      try (by simpl; repeat (apply Forall_cons_2; [done|]); apply Forall_nil_2);
      (split; [|done]); by eexists.
  - rewrite resolve_input_local by done. cbv zeta.
    destruct (node_at (fs w) (path_of path)) eqn:Hnode;
      [|destruct (ignore_error _) eqn:Hign];
      (eexists _, _, _; split; [reflexivity|]; split; [history|];
       split; [simpl; repeat (apply Forall_cons_2; [by auto|]); apply Forall_nil_2|]; split; [intros q Hq; cbn [fs log set_fs]; by rewrite ?Hne|]; split; [done|]);
      cbv beta iota;
      try (by simpl; repeat (apply Forall_cons_2; [done|]); apply Forall_nil_2);
      try done;
      (split; [|done]); by eexists.
Qed.

Lemma main_unfold w path perc_frames max_frames :
  main path perc_frames max_frames w =
    match resolve_input path w with
    | (w1, Normal p) =>
        match node_at (fs w1) p with
        | Some (File (Video clip)) =>
            match total_frames_of (fps clip) (duration clip) with
            | Ok n =>
                let w2 := log (FractionChecked (PyFloat.in_unit_interval perc_frames))
                            (log (TotalFrames n) (log (Open p) w1)) in
                if PyFloat.in_unit_interval perc_frames
                then sample_frames p clip n perc_frames max_frames w2
                else (log (Print "Error: perc_frames must be between 0 and 1.") w2,
                      Return)
            | Err e => (log (Open p) w1, Raise e)
            end
        | _ => (log (Open p) w1, Raise OSError)
        end
    | (w1, Return) => (w1, Return)
    | (w1, Raise e) => (w1, Raise e)
    end.
Proof.
  unfold main. run. destruct (resolve_input path w) as [w1 [p| |e]]; try done.
  unfold VideoFileClip.
  destruct (node_at (fs w1) p) as [[|[clip| |]]|]; try done.
  destruct (total_frames_of _ _) as [n|e]; [|done].
  by destruct (PyFloat.in_unit_interval perc_frames).
Qed.

(** C6, as amended.  For every input string that is not a URL and does not
    name an existing local file, when the lookup of the path fails with one of
    the errors [exists] takes for "not there" (no such file, a component that
    is not a directory), the program reports a failure and returns early, and
    the file system is left as it was: no directory is created or destroyed. *)
Theorem missing_local_file_is_reported w path perc_frames max_frames :
  is_url path = false →
  node_at (fs w) (path_of path) = None →
  ignore_error (lookup_error w (path_of path)) = true →
  ∃ w', main path perc_frames max_frames w = (w', Return)
        ∧ history w' = history w ++ [Exists (path_of path);
                                     Print "Error: File does not exist."]
        ∧ fs w' = fs w.
Proof.
  intros Hurl Hnone Hign. unfold main. run.
  rewrite resolve_input_local by done. simpl.
  rewrite Hnone, Hign.
  eexists; split; [done|]. split; [|done]. simpl. by rewrite <- app_assoc.
Qed.

(** A file name nothing answers to. *)
Lemma missing_local_file_is_reported_witness :
  ∃ w',
    main "clip.mov" Sample.half 180 Sample.first_run = (w', Return)
    ∧ history w' = history Sample.first_run
                   ++ [Exists (path_of "clip.mov"); Print "Error: File does not exist."]
    ∧ fs w' = fs Sample.first_run.
Proof.
  apply (missing_local_file_is_reported Sample.first_run "clip.mov" Sample.half 180);
    reflexivity.
Defined.

(** C6, the claim as stated fails.  A file name of 300 letters names no
    existing file, yet nothing is reported: the lookup fails with
    [ENAMETOOLONG], which [exists] does not take for "not there", and the run
    ends with that [OSError] at the test itself. *)
Lemma overlong_file_name_crashes :
  ∃ w',
    is_url Edge.long_name = false
    ∧ String.length Edge.long_name = 300%nat
    ∧ node_at (fs Sample.first_run) (path_of Edge.long_name) = None
    ∧ main Edge.long_name Sample.half 180 Sample.first_run = (w', Raise OSError)
    ∧ history w' = [Exists [Edge.long_name]]
    ∧ ¬ reports_error (history w').
Proof.
  eexists. do 5 (split; [by vm_compute|]).
  by intros (line & [= ] & _).
Qed.

(** C7.  For every URL input, if the site offers no MP4 stream or the fetch
    fails for any reason, the program reports an error and returns early
    instead of crashing; it has asked the site once, started at most one
    download, and left the file system as it was. *)
Theorem failed_fetch_is_reported w url perc_frames max_frames :
  is_url url = true →
  site w url = Ok [] ∨ fetch_fails w url →
  ∃ w' evs,
    main url perc_frames max_frames w = (w', Return)
    ∧ history w' = history w ++ evs
    ∧ reports_error evs
    ∧ length (List.filter is_connect evs) = 1%nat
    ∧ (length (List.filter is_download evs) ≤ 1)%nat
    ∧ fs w' = fs w.
Proof.
  intros Hurl Hfail. rewrite main_unfold, resolve_input_url by done. cbv zeta.
  destruct Hfail as [Hsite|[e Hsite|l Hsite Hpick Hl|l s e Hsite Hpick Hfetch
                            |l s c Hsite Hpick Hfetch Hdir]];
    rewrite Hsite; [| |destruct l as [|s0 l]; [done|]; rewrite Hpick
                    |destruct l as [|s0 l]; [done|]; rewrite Hpick, Hfetch
                    |destruct l as [|s0 l]; [done|]; rewrite Hpick, Hfetch, Hdir];
    (eexists _, _; split; [reflexivity|]; split; [history|]);
    (split; [by eexists|]); simpl; auto.
Qed.

(** The site cannot be reached. *)
Lemma failed_fetch_is_reported_witness :
  ∃ w' evs,
    main "https://youtu.be/x" Sample.half 180 Sample.first_run = (w', Return)
    ∧ history w' = history Sample.first_run ++ evs
    ∧ reports_error evs
    ∧ length (List.filter is_connect evs) = 1%nat
    ∧ (length (List.filter is_download evs) ≤ 1)%nat
    ∧ fs w' = fs Sample.first_run.
Proof.
  apply (failed_fetch_is_reported Sample.first_run "https://youtu.be/x" Sample.half 180);
    [reflexivity|].
  right. by apply (query_fails _ _ (RemoteError "offline")).
Defined.

(** ** The output directory and the extraction loop *)

Lemma node_at_join m q n :
  is_anchor n = false → node_at m (q </> n) = m !! (q </> n).
Proof.
  intros Hn. unfold joinpath. destruct q as [|a [|b q]]; simpl; [by rewrite Hn|done..].
Qed.

Lemma parent_join q n : is_anchor n = false → parent (q </> n) = q.
Proof.
  intros Hn. unfold parent, joinpath. rewrite reverse_snoc, Hn.
  apply reverse_involutive.
Qed.

Lemma string_length_app (s t : string) :
  String.length (s +:+ t) = (String.length s + String.length t)%nat.
Proof. induction s as [|c s IH]; simpl; [done|by rewrite IH]. Qed.

Lemma jpg_name_not_anchor (i : Z) : is_anchor (pretty i +:+ ".jpg") = false.
Proof.
  unfold is_anchor. apply bool_decide_eq_false_2.
  intros [H|H]; apply (f_equal String.length) in H;
    rewrite string_length_app in H; simpl in H; lia.
Qed.

Lemma string_app_inv_r (s t u : string) : s +:+ u = t +:+ u → s = t.
Proof.
  revert t. induction s as [|c s IH]; intros [|c' t] H; try done.
  - apply (f_equal String.length) in H.
    rewrite !string_length_app in H. simpl in H. lia.
  - apply (f_equal String.length) in H.
    rewrite !string_length_app in H. simpl in H. lia.
  - simpl in H. injection H as -> H. f_equal. by apply IH.
Qed.

Lemma frame_file_inj d i j : frame_file d i = frame_file d j → i = j.
Proof.
  unfold frame_file, joinpath. intros H%app_inj_tail. destruct H as [_ H].
  apply string_app_inv_r in H. by apply (inj pretty).
Qed.

Lemma rmtree_dir w d :
  node_at (fs w) d = Some Dir →
  rmtree d w
  = (set_fs (filter (λ kv, ¬ d `prefix_of` kv.1) (fs w)) (log (Rmtree d) w),
     Normal tt).
Proof. intros Hd. unfold rmtree. by rewrite Hd. Qed.

Lemma mkdir_after_rmtree w q n :
  is_anchor n = false →
  node_at (fs w) q = Some Dir →
  mkdir (q </> n)
    (set_fs (filter (λ kv, ¬ (q </> n) `prefix_of` kv.1) (fs w))
       (log (Rmtree (q </> n)) w))
  = (set_fs (<[q </> n := Dir]> (filter (λ kv, ¬ (q </> n) `prefix_of` kv.1) (fs w)))
       (log (Mkdir (q </> n)) (log (Rmtree (q </> n)) w)), Normal tt).
Proof.
  intros Hn Hq. unfold mkdir. cbn [fs set_fs log].
  rewrite parent_join by done. rewrite node_at_join by done.
  rewrite map_lookup_filter_None_2; last first.
  { right. intros x _ []. done. }
  assert (node_at (filter (λ kv, ¬ (q </> n) `prefix_of` kv.1) (fs w)) q = Some Dir)
    as ->; [|done].
  revert Hq. unfold node_at.
  assert (Hin : fs w !! q = Some Dir →
                filter (λ kv, ¬ (q </> n) `prefix_of` kv.1) (fs w) !! q = Some Dir).
  { intros Hq. apply map_lookup_filter_Some_2; [done|]. apply prefix_snoc_not. }
  destruct q as [|a [|b q]]; [done| |done]. by destruct (is_anchor a).
Qed.

Lemma recreated_dir_is_empty (m : gmap Path node) d :
  empty_dir (<[d := Dir]> (filter (λ kv, ¬ d `prefix_of` kv.1) m)) d.
Proof.
  split; [by rewrite lookup_insert_eq|].
  intros q Hpre Hne. rewrite lookup_insert_ne by done.
  apply map_lookup_filter_None_2. right. intros x _ []. done.
Qed.

Lemma extract_frames_run clip q n l :
  is_anchor n = false →
  Forall (λ i, ∃ t, PyFloat.int_truediv i (fps clip) = Ok t) l →
  ∀ w,
    fs w !! (q </> n) = Some Dir →
    (∀ p, (q </> n) `prefix_of` p → p ≠ q </> n → fs w !! p ≠ Some Dir) →
    for_each l (extract_frame clip (q </> n)) w =
      (set_fs (write_frames clip (q </> n) l (fs w))
         {| fs := fs w; lookup_error := lookup_error w; site := site w;
            history := history w ++ frame_events clip (q </> n) l |},
       Normal tt).
Proof.
  intros Hn Hl. induction Hl as [|i l [t Ht] _ IH]; intros w Hd Hbelow.
  - simpl. unfold frame_events; simpl. rewrite app_nil_r. by destruct w.
  - cbn [for_each]. unfold mbind at 1, M_bind at 1.
    assert (Hrun : extract_frame clip (q </> n) i w =
              (set_fs (<[frame_file (q </> n) i := frame_jpeg clip i]> (fs w))
                 (log (Save (frame_file (q </> n) i))
                    (log (GetFrame (frame_time clip i)) w)), Normal tt)).
    { unfold extract_frame, frame_jpeg, frame_time. rewrite Ht. run.
      unfold clip_get_frame, save. cbn [fs log].
      fold (frame_file (q </> n) i). unfold frame_file.
      rewrite parent_join, !node_at_join by (done || apply jpg_name_not_anchor).
      rewrite Hd.
      destruct (fs w !! (q </> n </> _)) as [[|c]|] eqn:E; try done.
      exfalso. eapply (Hbelow (q </> n </> (pretty i +:+ ".jpg"))); [by eexists| |done].
      intros H%(f_equal length). unfold joinpath in H.
      rewrite !length_app in H. simpl in H. lia. }
    rewrite Hrun. rewrite IH.
    + unfold set_fs, log, write_frames, frame_events. simpl.
      by rewrite <- !app_assoc.
    + cbn [fs set_fs log]. rewrite lookup_insert_ne; [done|].
      intros H%(f_equal length). unfold frame_file, joinpath in H.
      rewrite !length_app in H. simpl in H. lia.
    + cbn [fs set_fs log]. intros p Hp Hne.
      destruct (decide (p = frame_file (q </> n) i)) as [->|].
      * by rewrite lookup_insert_eq.
      * rewrite lookup_insert_ne by done. by apply Hbelow.
Qed.

Lemma write_frames_snoc clip d l i m :
  write_frames clip d (l ++ [i]) m
  = <[frame_file d i := frame_jpeg clip i]> (write_frames clip d l m).
Proof. unfold write_frames. by rewrite foldl_snoc. Qed.

Lemma write_frames_lookup_in clip d l m i :
  i ∈ l → write_frames clip d l m !! frame_file d i = Some (frame_jpeg clip i).
Proof.
  induction l as [|j l IH] using rev_ind; [by intros ?%elem_of_nil|].
  rewrite write_frames_snoc. intros [Hi| ->%list_elem_of_singleton]%elem_of_app.
  - destruct (decide (i = j)) as [->|Hne]; [by rewrite lookup_insert_eq|].
    rewrite lookup_insert_ne; [by apply IH|].
    intros H%frame_file_inj. done.
  - by rewrite lookup_insert_eq.
Qed.

Lemma write_frames_lookup_other clip d l m p :
  (∀ i, i ∈ l → p ≠ frame_file d i) →
  write_frames clip d l m !! p = m !! p.
Proof.
  induction l as [|j l IH] using rev_ind; [done|].
  intros Hp. rewrite write_frames_snoc, lookup_insert_ne.
  - apply IH. intros i Hi. apply Hp. apply elem_of_app. by left.
  - intros <-. eapply Hp; [|done]. apply elem_of_app. right. by apply list_elem_of_singleton.
Qed.

Lemma saved_files_frame_events clip d l :
  saved_files (frame_events clip d l) = frame_file d <$> l.
Proof.
  unfold saved_files, frame_events.
  induction l as [|i l IH]; [done|].
  rewrite bind_cons, omap_app, IH. done.
Qed.

Lemma no_error_frame_events clip d l : no_error_reported (frame_events clip d l).
Proof.
  unfold no_error_reported, frame_events.
  induction l as [|i l IH]; [by apply Forall_nil_2|].
  rewrite bind_cons. by repeat (apply Forall_cons_2; [done|]).
Qed.

(** Timestamps exist: an index below 2^53 converts to a float exactly, and a
    video with a frame to sample has a frame rate other than zero. *)

Lemma digits2_pos_size m : digits2_pos m = Pos.size m.
Proof. induction m as [m IH|m IH|]; simpl; by rewrite ?IH. Qed.

Lemma digits2_pos_iter_xO m k :
  digits2_pos (Pos.iter xO m k) = (digits2_pos m + k)%positive.
Proof.
  induction k as [|k IH] using Pos.peano_ind.
  - simpl. lia.
  - rewrite Pos.iter_succ. simpl. rewrite IH. lia.
Qed.

Lemma digits2_pos_bound m :
  Z.pos m < 2 ^ 53 → Z.pos (digits2_pos m) ≤ 53.
Proof.
  intros Hm. rewrite digits2_pos_size.
  destruct (Z.le_gt_cases (Z.pos (Pos.size m)) 53) as [|Hgt]; [done|].
  pose proof (Pos.size_le m) as Hle.
  assert (2 ^ 54 ≤ 2 ^ Z.pos (Pos.size m)) by (apply Z.pow_le_mono_r; lia).
  assert (Z.pos (2 ^ Pos.size m) ≤ Z.pos m~0) by lia.
  rewrite Pos2Z.inj_pow in *. lia.
Qed.

Lemma binary_round_aux_exact mz ez :
  Z.pos (digits2_pos mz) = 53 → -1074 ≤ ez ≤ 971 →
  binary_round_aux PyFloat.prec PyFloat.emax false (Z.pos mz) ez loc_Exact
  = S754_finite false mz ez.
Proof.
  intros Hdig Hez. unfold binary_round_aux, shr_fexp.
  cbn [Zdigits2 shr_record_of_loc]. rewrite Hdig.
  replace (fexp PyFloat.prec PyFloat.emax (53 + ez) - ez) with 0
    by (unfold fexp, emin, PyFloat.prec, PyFloat.emax; lia).
  cbn [shr shr_m loc_of_shr_record round_nearest_even Zdigits2 shr_record_of_loc].
  rewrite Hdig.
  replace (fexp PyFloat.prec PyFloat.emax (53 + ez) - ez) with 0
    by (unfold fexp, emin, PyFloat.prec, PyFloat.emax; lia).
  cbn [shr shr_m].
  by rewrite (Zle_imp_le_bool ez (PyFloat.emax - PyFloat.prec))
    by (unfold PyFloat.prec, PyFloat.emax; lia).
Qed.

Lemma of_int_small i :
  0 ≤ i < 2 ^ 53 → ∃ x, PyFloat.of_int i = Ok x.
Proof.
  intros [Hlo Hhi]. destruct i as [|m|m]; [by eexists| |lia].
  pose proof (digits2_pos_bound m Hhi) as Hd.
  unfold PyFloat.of_int, binary_normalize, binary_round.
  replace (fexp PyFloat.prec PyFloat.emax (Z.pos (digits2_pos m) + 0))
    with (Z.pos (digits2_pos m) - 53)
    by (unfold fexp, emin, PyFloat.prec, PyFloat.emax; lia).
  unfold shl_align. rewrite Z.sub_0_r.
  destruct (Z.pos (digits2_pos m) - 53) as [|k|k] eqn:Hk; [|lia|].
  - rewrite binary_round_aux_exact by lia. by eexists.
  - rewrite binary_round_aux_exact; [by eexists| |lia].
    rewrite digits2_pos_iter_xO. lia.
Qed.

(** ** Floats: the product, rounded

    [SFmul] multiplies the mantissas exactly and rounds the result to 53
    bits, to nearest and ties to even.  The lemmas below follow the rounding
    through its shifts, as far as the floor of the result is concerned. *)

Lemma iter_pos_nat {A} (f : A → A) p x :
  SpecFloat.iter_pos f p x = Nat.iter (Pos.to_nat p) f x.
Proof.
  revert x. induction p as [p IH|p IH|]; intros x; simpl SpecFloat.iter_pos.
  - rewrite !IH, Pos2Nat.inj_xI.
    replace (S (2 * Pos.to_nat p)) with (Pos.to_nat p + (Pos.to_nat p + 1))%nat by lia.
    rewrite !Nat.iter_add. done.
  - rewrite !IH, Pos2Nat.inj_xO.
    replace (2 * Pos.to_nat p)%nat with (Pos.to_nat p + Pos.to_nat p)%nat by lia.
    by rewrite Nat.iter_add.
  - done.
Qed.

Lemma shr_1_spec mrs :
  0 ≤ shr_m mrs →
  shr_m (shr_1 mrs) = shr_m mrs / 2
  ∧ shr_r (shr_1 mrs) = Z.odd (shr_m mrs)
  ∧ shr_s (shr_1 mrs) = shr_r mrs || shr_s mrs.
Proof.
  destruct mrs as [m r s]. cbn [shr_m shr_r shr_s]. intros Hm.
  destruct m as [|[p|p|]|p]; cbn [shr_1 shr_m shr_r shr_s]; try lia;
    (split; [|done]).
  - done.
  - rewrite Pos2Z.inj_xI. apply Z.div_unique with 1; lia.
  - rewrite Pos2Z.inj_xO. apply Z.div_unique with 0; lia.
  - done.
Qed.

Lemma odd_or_remainder m j :
  0 ≤ m → 0 ≤ j →
  Z.odd (m / 2 ^ j) || negb (m `mod` 2 ^ j =? 0)
  = negb (m `mod` 2 ^ (j + 1) =? 0).
Proof.
  intros Hm Hj.
  assert (0 < 2 ^ j) as HP by (apply Z.pow_pos_nonneg; lia).
  rewrite Z.pow_add_r, Z.pow_1_r by lia. rewrite Z.rem_mul_r by lia.
  rewrite (Zmod_odd (m / 2 ^ j)).
  pose proof (Z.mod_pos_bound m (2 ^ j) HP).
  destruct (Z.odd (m / 2 ^ j)); simpl.
  - symmetry. apply negb_true_iff, Z.eqb_neq. lia.
  - f_equal. by rewrite Z.mul_0_r, Z.add_0_r.
Qed.

Lemma shr_iter_spec k m :
  0 ≤ m →
  let mrs := Nat.iter (S k) shr_1 (Build_shr_record m false false) in
  shr_m mrs = m / 2 ^ Z.of_nat (S k)
  ∧ shr_r mrs = Z.odd (m / 2 ^ Z.of_nat k)
  ∧ shr_s mrs = negb (m `mod` 2 ^ Z.of_nat k =? 0).
Proof.
  intros Hm. set (start := Build_shr_record m false false).
  assert (Hk : ∀ j, shr_m (Nat.iter j shr_1 start) = m / 2 ^ Z.of_nat j
                    ∧ shr_r (Nat.iter j shr_1 start) || shr_s (Nat.iter j shr_1 start)
                      = negb (m `mod` 2 ^ Z.of_nat j =? 0)).
  { induction j as [|j [IHm IHs]].
    { split; [by rewrite Z.div_1_r|]. by rewrite Z.mod_1_r. }
    change (Nat.iter (S j) shr_1 start) with (shr_1 (Nat.iter j shr_1 start)).
    destruct (shr_1_spec (Nat.iter j shr_1 start)) as (-> & -> & ->).
    { rewrite IHm. apply Z.div_pos; lia. }
    rewrite IHm, IHs, Nat2Z.inj_succ, <- Z.add_1_r. split.
    - rewrite Z.div_div by lia. f_equal. rewrite Z.pow_add_r; lia.
    - apply odd_or_remainder; lia. }
  cbv zeta.
  change (Nat.iter (S k) shr_1 start) with (shr_1 (Nat.iter k shr_1 start)).
  destruct (Hk k) as [Hm' Hs'].
  destruct (shr_1_spec (Nat.iter k shr_1 start)) as (-> & -> & ->).
  { rewrite Hm'. apply Z.div_pos; lia. }
  rewrite Hm', Hs'. split; [|done].
  rewrite Z.div_div by lia. f_equal. rewrite Nat2Z.inj_succ, Z.pow_succ_r; lia.
Qed.

Lemma shr_exact_spec m e n :
  0 ≤ m → 0 < n →
  ∃ mrs, shr (Build_shr_record m false false) e n = (mrs, e + n)
         ∧ shr_m mrs = m / 2 ^ n
         ∧ shr_r mrs = Z.odd (m / 2 ^ (n - 1))
         ∧ shr_s mrs = negb (m `mod` 2 ^ (n - 1) =? 0).
Proof.
  intros Hm Hn. destruct n as [|p|p]; try lia.
  unfold shr. rewrite iter_pos_nat.
  destruct (Pos2Nat.is_succ p) as [k Hk]. rewrite Hk.
  eexists. split; [done|].
  destruct (shr_iter_spec k m Hm) as (-> & -> & ->).
  replace (Z.of_nat (S k)) with (Z.pos p) by lia.
  replace (Z.of_nat k) with (Z.pos p - 1) by lia. done.
Qed.

Lemma shr_nop mrs e n : n ≤ 0 → shr mrs e n = (mrs, e).
Proof. intros Hn. by destruct n. Qed.

Lemma round_nearest_even_spec mrs :
  (round_nearest_even (shr_m mrs) (loc_of_shr_record mrs) = shr_m mrs
   ∧ (shr_r mrs = false ∨ shr_s mrs = false))
  ∨ (round_nearest_even (shr_m mrs) (loc_of_shr_record mrs) = shr_m mrs + 1
     ∧ shr_r mrs = true).
Proof.
  destruct mrs as [m [] []]; cbn; try destruct (Z.even m); auto.
Qed.

Lemma digits2_pos_range m :
  2 ^ (Z.pos (digits2_pos m) - 1) ≤ Z.pos m < 2 ^ Z.pos (digits2_pos m).
Proof.
  rewrite digits2_pos_size.
  pose proof (Pos.size_le m) as Hle. pose proof (Pos.size_gt m) as Hgt.
  assert (Z.pos (2 ^ Pos.size m) ≤ Z.pos m~0) as Hle' by lia.
  assert (Z.pos m < Z.pos (2 ^ Pos.size m)) as Hgt' by lia.
  rewrite Pos2Z.inj_pow in *.
  replace (2 ^ Z.pos (Pos.size m)) with (2 * 2 ^ (Z.pos (Pos.size m) - 1)) in Hle'.
  - lia.
  - rewrite <- Z.pow_succ_r by lia. f_equal. lia.
Qed.

Lemma shiftl_as_div z e : e ≤ 0 → Z.shiftl z e = z / 2 ^ (- e).
Proof.
  intros He. rewrite <- (Z.opp_involutive e) at 1.
  rewrite Z.shiftl_opp_r, Z.shiftr_div_pow2 by lia. done.
Qed.

(** The mantissa after rounding fits the format again, possibly after one
    more shift, which loses nothing. *)
Lemma renormalize m e :
  0 ≤ m ≤ 2 ^ 53 → -1074 ≤ e ≤ 970 →
  ∃ mrs e', shr_fexp PyFloat.prec PyFloat.emax m e loc_Exact = (mrs, e')
            ∧ 0 ≤ shr_m mrs ∧ e' ≤ 971
            ∧ Z.shiftl (shr_m mrs) e' = Z.shiftl m e.
Proof.
  intros Hm He. unfold shr_fexp, fexp, emin, PyFloat.prec, PyFloat.emax.
  cbn [shr_record_of_loc].
  destruct m as [|q|q]; [| |lia].
  - cbn [Zdigits2]. rewrite shr_nop by lia. eexists _, _. split; [done|].
    cbn [shr_m]. lia.
  - cbn [Zdigits2]. pose proof (digits2_pos_range q) as Hq.
    destruct (decide (Z.pos q = 2 ^ 53)) as [Heq|Hne].
    + assert (q = 9007199254740992%positive) as -> by lia. clear Heq Hq Hm.
      change (Z.pos (digits2_pos 9007199254740992)) with 54.
      replace (Z.max (54 + e - 53) (3 - 1024 - 53) - e) with 1 by lia.
      eexists _, _. split; [reflexivity|]. cbn [shr_m SpecFloat.iter_pos shr_1].
      split; [lia|]. split; [lia|].
      destruct (Z.le_gt_cases 0 e).
      * rewrite !Z.shiftl_mul_pow2 by lia. rewrite Z.pow_add_r by lia. lia.
      * rewrite !shiftl_as_div by lia.
        replace (- e) with (- (e + 1) + 1) by lia.
        rewrite Z.pow_add_r by lia.
        change (Z.pos 9007199254740992) with (4503599627370496 * 2 ^ 1).
        rewrite Z.div_mul_cancel_r; lia.
    + assert (Z.pos (digits2_pos q) ≤ 53).
      { apply digits2_pos_bound. lia. }
      rewrite shr_nop by lia. eexists _, _. split; [done|].
      cbn [shr_m]. lia.
Qed.

Lemma to_int_of_rounded (mrs : shr_record) e :
  0 ≤ shr_m mrs → e ≤ 971 →
  PyFloat.to_int
    match shr_m mrs with
    | 0 => S754_zero false
    | Z.pos q =>
        if e <=? PyFloat.emax - PyFloat.prec then S754_finite false q e
        else S754_infinity false
    | Z.neg _ => S754_nan
    end
  = Ok (Z.shiftl (shr_m mrs) e).
Proof.
  intros Hm He. destruct (shr_m mrs) as [|q|q]; [|  |lia].
  - by rewrite Z.shiftl_0_l.
  - by rewrite (Zle_imp_le_bool e (PyFloat.emax - PyFloat.prec))
      by (unfold PyFloat.prec, PyFloat.emax; lia).
Qed.

Lemma odd_quotient_remainder m n :
  0 ≤ m → 0 < n → Z.odd (m / 2 ^ (n - 1)) = true → 2 ^ (n - 1) ≤ m `mod` 2 ^ n.
Proof.
  intros Hm Hn Hodd.
  assert (0 < 2 ^ (n - 1)) as HP by (apply Z.pow_pos_nonneg; lia).
  assert (2 ^ n = 2 ^ (n - 1) * 2) as Hn2.
  { rewrite Z.mul_comm, <- Z.pow_succ_r by lia. f_equal. lia. }
  rewrite Hn2. rewrite Z.rem_mul_r by lia.
  rewrite (Zmod_odd (m / 2 ^ (n - 1))), Hodd.
  pose proof (Z.mod_pos_bound m (2 ^ (n - 1)) HP). lia.
Qed.

Lemma stays_remainder m n :
  0 ≤ m → 0 < n →
  Z.odd (m / 2 ^ (n - 1)) = false ∨ negb (m `mod` 2 ^ (n - 1) =? 0) = false →
  m `mod` 2 ^ n ≤ 2 ^ (n - 1).
Proof.
  intros Hm Hn Hrs.
  assert (0 < 2 ^ (n - 1)) as HP by (apply Z.pow_pos_nonneg; lia).
  assert (2 ^ n = 2 ^ (n - 1) * 2) as Hn2.
  { rewrite Z.mul_comm, <- Z.pow_succ_r by lia. f_equal. lia. }
  rewrite Hn2. rewrite Z.rem_mul_r by lia.
  rewrite (Zmod_odd (m / 2 ^ (n - 1))).
  pose proof (Z.mod_pos_bound m (2 ^ (n - 1)) HP).
  destruct Hrs as [->|Hs%negb_false_iff%Z.eqb_eq]; [lia|].
  rewrite Hs. destruct (Z.odd _); lia.
Qed.

Lemma rounded_to_int (m : positive) (e : Z) :
  Z.shiftl (Z.pos m) e < 2 ^ 53 →
  ∃ n, PyFloat.to_int
         (binary_round_aux PyFloat.prec PyFloat.emax false (Z.pos m) e loc_Exact)
       = Ok n
    ∧ (n = Z.shiftl (Z.pos m) e
       ∨ (n = Z.shiftl (Z.pos m) e + 1 ∧ e < 0
          ∧ 2 ^ 53 * (n * 2 ^ (- e) - Z.pos m) ≤ Z.pos m))
    ∧ (e < 0 →
       2 ^ 54 * ((Z.shiftl (Z.pos m) e + 1) * 2 ^ (- e) - Z.pos m) ≤ Z.pos m →
       n = Z.shiftl (Z.pos m) e + 1).
Proof.
  intros HK.
  pose proof (digits2_pos_range m) as Hd. 
  assert (Hd1 : 1 ≤ Z.pos (digits2_pos m)) by lia.
  set (d := Z.pos (digits2_pos m)) in *.
  assert (Hde : d + e ≤ 53).
  { destruct (Z.le_gt_cases (d + e) 53) as [|Hgt]; [done|]. exfalso.
    destruct (Z.le_gt_cases 0 e).
    - rewrite Z.shiftl_mul_pow2 in HK by done.
      assert (2 ^ 53 ≤ 2 ^ (d - 1) * 2 ^ e).
      { rewrite <- Z.pow_add_r by lia. apply Z.pow_le_mono_r; lia. }
      assert (0 < 2 ^ e) by (apply Z.pow_pos_nonneg; lia).
      nia.
    - rewrite shiftl_as_div in HK by lia.
      assert (2 ^ 53 ≤ 2 ^ (d - 1) / 2 ^ (- e)).
      { rewrite <- Z.pow_sub_r by lia. apply Z.pow_le_mono_r; lia. }
      assert (0 < 2 ^ (- e)) by (apply Z.pow_pos_nonneg; lia).
      assert (2 ^ (d - 1) / 2 ^ (- e) ≤ Z.pos m / 2 ^ (- e))
        by (apply Z.div_le_mono; lia).
      lia. }
  set (e1 := Z.max (d + e - 53) (-1074)).
  assert (Hfexp : fexp PyFloat.prec PyFloat.emax (Zdigits2 (Z.pos m) + e) = e1) by done.
  unfold binary_round_aux. unfold shr_fexp at 1. rewrite Hfexp.
  cbn [shr_record_of_loc].
  destruct (Z.le_gt_cases (e1 - e) 0) as [Hn|Hn].
  - rewrite shr_nop by done. cbn [shr_m loc_of_shr_record round_nearest_even].
    assert (Z.pos m < 2 ^ 53).
    { assert (2 ^ d ≤ 2 ^ 53) by (apply Z.pow_le_mono_r; lia). lia. }
    destruct (renormalize (Z.pos m) e) as (mrs & e'' & -> & Hpos & He'' & Hval);
      [lia..|].
    rewrite to_int_of_rounded by done. eexists. split; [done|].
    rewrite Hval. split; [by left|]. intros He Hclose. exfalso.
    rewrite shiftl_as_div in Hclose by lia.
    assert (0 < 2 ^ (- e)) as HT by (apply Z.pow_pos_nonneg; lia).
    pose proof (Z.div_mod (Z.pos m) (2 ^ (- e)) ltac:(lia)) as Hdm.
    pose proof (Z.mod_pos_bound (Z.pos m) (2 ^ (- e)) HT) as Hmb.
    nia.
  - destruct (shr_exact_spec (Z.pos m) e (e1 - e)) as (mrs' & -> & Hm' & Hr' & Hs');
      [lia..|].
    replace (e + (e1 - e)) with e1 by lia.
    set (n := e1 - e) in *. set (m' := shr_m mrs') in *.
    assert (0 < 2 ^ n) as Hpn by (apply Z.pow_pos_nonneg; lia).
    assert (0 < 2 ^ (- e1)) as Hps by (apply Z.pow_pos_nonneg; lia).
    assert (2 ^ (- e) = 2 ^ n * 2 ^ (- e1)) as Hsplit.
    { rewrite <- Z.pow_add_r by lia. f_equal. lia. }
    assert (0 ≤ m') as Hm'0 by (rewrite Hm'; apply Z.div_pos; lia).
    assert (m' < 2 ^ 53) as Hm'53.
    { rewrite Hm'. apply Z.div_lt_upper_bound; [done|].
      rewrite <- Z.pow_add_r by lia.
      assert (2 ^ d ≤ 2 ^ (n + 53)) by (apply Z.pow_le_mono_r; lia). lia. }
    assert (HK' : Z.shiftl (Z.pos m) e = m' / 2 ^ (- e1)).
    { rewrite shiftl_as_div by lia. rewrite Hsplit, <- Z.div_div by lia.
      by rewrite <- Hm'. }
    assert (Hres : ∀ m'', 0 ≤ m'' ≤ 2 ^ 53 →
      PyFloat.to_int
        (let '(mrs'', e'') := shr_fexp PyFloat.prec PyFloat.emax m'' e1 loc_Exact in
         match shr_m mrs'' with
         | 0 => S754_zero false
         | Z.pos q =>
             if e'' <=? PyFloat.emax - PyFloat.prec then S754_finite false q e''
             else S754_infinity false
         | Z.neg _ => S754_nan
         end) = Ok (m'' / 2 ^ (- e1))).
    { intros m'' Hm''.
      destruct (renormalize m'' e1) as (mrs & e'' & -> & Hpos & He'' & Hval);
        [lia..|].
      rewrite to_int_of_rounded by done. rewrite Hval.
      by rewrite shiftl_as_div by lia. }
    rewrite HK', Hsplit.
    set (S := 2 ^ (- e1)) in *.
    pose proof (Z.div_mod (Z.pos m) (2 ^ n) ltac:(lia)) as Hdmm.
    pose proof (Z.mod_pos_bound (Z.pos m) (2 ^ n) Hpn) as Hmbm.
    rewrite <- Hm' in Hdmm.
    pose proof (Z.div_mod m' S ltac:(lia)) as Hdm.
    pose proof (Z.mod_pos_bound m' S ltac:(lia)) as Hmb.
    pose proof (Z.div_mod (m' + 1) S ltac:(lia)) as Hdm1.
    pose proof (Z.mod_pos_bound (m' + 1) S ltac:(lia)) as Hmb1.
    assert (Hhalf : 2 ^ n = 2 * 2 ^ (n - 1)).
    { rewrite <- Z.pow_succ_r by lia. f_equal. lia. }
    assert (0 < 2 ^ (n - 1)) as Hph by (apply Z.pow_pos_nonneg; lia).
    assert (Hmd : Z.pos m < 2 ^ 54 * 2 ^ (n - 1)).
    { rewrite <- Z.pow_add_r by lia.
      assert (2 ^ d ≤ 2 ^ (54 + (n - 1))) by (apply Z.pow_le_mono_r; lia). lia. }
    destruct (round_nearest_even_spec mrs') as [[Hrd Hrs]|[Hrd Hr]];
      fold m' in Hrd; rewrite Hrd.
    + rewrite Hres by lia. eexists. split; [done|]. split; [by left|].
      intros He Hclose. exfalso.
      rewrite Hr', Hs' in Hrs. apply stays_remainder in Hrs; [|lia..].
      assert (m' + 1 ≤ (m' / S + 1) * S) by nia.
      assert (2 ^ (n - 1) ≤ (m' / S + 1) * (2 ^ n * S) - Z.pos m) by nia.
      nia.
    + rewrite Hres by lia. eexists. split; [done|].
      rewrite Hr' in Hr. apply odd_quotient_remainder in Hr; [|lia..].
      split.
      * destruct (decide ((m' + 1) / S = m' / S)) as [Heq|Hne]; [by left|right].
        assert (Hb : (m' + 1) / S = m' / S + 1) by nia.
        split; [done|]. split; [lia|].
        assert (Hfull : m' + 1 = (m' / S + 1) * S) by nia.
        rewrite Hb.
        replace ((m' / S + 1) * (2 ^ n * S)) with ((m' + 1) * 2 ^ n) by nia.
        assert (Hnorm : e1 = d + e - 53).
        { destruct (Z.max_spec (d + e - 53) (-1074)) as [[Hlt Hmax]|[_ Hmax]];
            [|done]. exfalso. fold e1 in Hmax.
          assert (m' < 2 ^ 52).
          { rewrite Hm'. apply Z.div_lt_upper_bound; [done|].
            rewrite <- Z.pow_add_r by lia.
            assert (2 ^ d ≤ 2 ^ (n + 52)) by (apply Z.pow_le_mono_r; lia). lia. }
          assert (2 ^ 52 < S) by (unfold S; rewrite Hmax; apply Z.pow_lt_mono_r; lia).
          rewrite (Z.div_small (m' + 1)) in Hb by lia.
          assert (0 ≤ m' / S) by (apply Z.div_pos; lia). lia. }
        assert (2 ^ 53 * 2 ^ (n - 1) ≤ Z.pos m).
        { rewrite <- Z.pow_add_r by lia. replace (53 + (n - 1)) with (d - 1) by lia.
          lia. }
        nia.
      * intros He Hclose.
        assert (m' + 1 ≤ (m' / S + 1) * S) by nia.
        assert ((m' / S + 1) * S < m' + 2) by nia.
        assert (Hfull : m' + 1 = (m' / S + 1) * S) by lia.
        rewrite Hfull, Z.div_mul by lia. done.
Qed.

Lemma two_power_pos e : (0 < (2 # 1) ^ e)%Q.
Proof. by apply Qpower_0_lt. Qed.

Lemma to_Q_nonneg x q :
  PyFloat.to_Q x = Some q → (0 <= q)%Q →
  (∃ s, x = S754_zero s ∧ q = 0%Q)
  ∨ (∃ m e, x = S754_finite false m e ∧ q = (inject_Z (Z.pos m) * (2 # 1) ^ e)%Q).
Proof.
  destruct x as [s|s| |[] m e]; cbn; try done; intros [= <-] Hq; eauto.
  exfalso. pose proof (two_power_pos e) as Hp.
  assert (inject_Z (Z.neg m) * (2 # 1) ^ e < 0)%Q; [|by eapply Qlt_not_le].
  rewrite <- (Qmult_0_l ((2 # 1) ^ e)). by apply Qmult_lt_compat_r.
Qed.

Lemma exact_product m1 e1 m2 e2 :
  (inject_Z (Z.pos m1) * (2 # 1) ^ e1 * (inject_Z (Z.pos m2) * (2 # 1) ^ e2)
   == inject_Z (Z.pos (m1 * m2)) * (2 # 1) ^ (e1 + e2))%Q.
Proof.
  rewrite Qpower_plus by done. rewrite Pos2Z.inj_mul, inject_Z_mult. ring.
Qed.

Lemma two_power_neg e :
  e ≤ 0 → ((2 # 1) ^ e == / inject_Z (2 ^ (- e)))%Q.
Proof.
  intros He. rewrite <- (Z.opp_involutive e) at 1. rewrite Qpower_opp.
  apply Qinv_comp. symmetry. apply (Zpower_Qpower 2). lia.
Qed.

Lemma scaled_bound (c M n e : Z) (x : Q) :
  e < 0 → (x == inject_Z M * (2 # 1) ^ e)%Q →
  (inject_Z c * (inject_Z n - x) <= x)%Q ↔ c * (n * 2 ^ (- e) - M) ≤ M.
Proof.
  intros He Hx. rewrite two_power_neg in Hx by lia.
  assert (0 < 2 ^ (- e)) as HT by (apply Z.pow_pos_nonneg; lia).
  set (T := 2 ^ (- e)) in *.
  assert (inject_Z 0 < inject_Z T)%Q as HTq by (by rewrite <- Zlt_Qlt).
  assert (¬ inject_Z T == 0)%Q as Hnz by (intros H; rewrite H in HTq; done).
  rewrite <- (Qmult_le_r _ _ (inject_Z T)) by done.
  assert (x * inject_Z T == inject_Z M)%Q as ->.
  { rewrite Hx. by field. }
  assert (inject_Z c * (inject_Z n - x) * inject_Z T
          == inject_Z (c * (n * T - M)))%Q as ->.
  { rewrite Hx. rewrite inject_Z_mult. unfold Z.sub.
    rewrite inject_Z_plus, inject_Z_opp, inject_Z_mult. by field. }
  by rewrite <- Zle_Qle.
Qed.

Lemma zero_product (x : Q) :
  (x == 0)%Q →
  0 = Qfloor x
  ∧ ¬ (inject_Z (2 ^ 54) * (inject_Z (Qfloor x + 1) - x) <= x)%Q.
Proof.
  intros Hx. assert (Qfloor x = 0) as -> by (by rewrite (Qfloor_comp _ _ Hx)).
  split; [done|]. rewrite Hx. intros H. by vm_compute in H.
Qed.

Lemma integer_product (M e : Z) (x : Q) :
  0 ≤ e → (x == inject_Z M * (2 # 1) ^ e)%Q →
  (inject_Z (2 ^ 54) * (inject_Z (Z.shiftl M e + 1) - x) <= x)%Q →
  2 ^ 54 ≤ Z.shiftl M e.
Proof.
  intros He Hx. rewrite Z.shiftl_mul_pow2 by done.
  assert (x == inject_Z (M * 2 ^ e))%Q as ->.
  { rewrite Hx, inject_Z_mult. by rewrite (Zpower_Qpower 2). }
  unfold Qminus.
  rewrite <- inject_Z_opp, <- inject_Z_plus, <- inject_Z_mult, <- Zle_Qle. lia.
Qed.

Lemma to_int_is_floor s x n :
  match x with
  | S754_zero s' | S754_infinity s' | S754_finite s' _ _ => s' = s
  | S754_nan => True
  end →
  s = false → PyFloat.to_int x = Ok n → PyFloat.floor x = Some n.
Proof.
  intros Hs ->. destruct x as [s|s| |s q k]; try done.
  - by intros [= <-].
  - subst s. destruct (to_int_floor_nonneg q k) as [-> ->]. by intros [= <-].
Qed.

(** C8, as amended.  For every opened video whose frame rate and duration
    are numbers that are not negative and whose exact product is below 2^53,
    the total frame count the program computes is the floor of the product as
    binary64 rounds it (to nearest).  Compared with the exact product
    frame_rate × duration it is floor(frame_rate × duration) or one more than
    that: one more only when the exact product lies within 2^-53 of itself
    below the next integer, and always when it lies within 2^-54 of itself
    below it; the rounded product is that integer then. *)
Theorem total_frames_is_floor_or_one_more (c : Clip) (f d : Q) :
  PyFloat.to_Q (fps c) = Some f →
  PyFloat.to_Q (duration c) = Some d →
  (0 <= f)%Q → (0 <= d)%Q →
  (f * d < inject_Z (2 ^ 53))%Q →
  ∃ n, total_frames_of (fps c) (duration c) = Ok n
       ∧ PyFloat.floor (PyFloat.mul (fps c) (duration c)) = Some n
       ∧ (n = Qfloor (f * d)
          ∨ (n = Qfloor (f * d) + 1
             ∧ (inject_Z (2 ^ 53) * (inject_Z n - f * d) <= f * d)%Q))
       ∧ ((inject_Z (2 ^ 54) * (inject_Z (Qfloor (f * d) + 1) - f * d) <= f * d)%Q →
          n = Qfloor (f * d) + 1).
Proof.
  intros Hf Hd Hf0 Hd0 Hlt. unfold total_frames_of, PyFloat.mul.
  destruct (to_Q_nonneg _ _ Hf Hf0) as [(s1 & -> & ->)|(m1 & e1 & -> & ->)];
    destruct (to_Q_nonneg _ _ Hd Hd0) as [(s2 & -> & ->)|(m2 & e2 & -> & ->)];
    cbn [SFmul];
    try (exists 0; split; [done|]; split; [done|];
         match goal with
         | |- context [Qfloor ?x] =>
             destruct (zero_product x) as [Hz Hn]; [ring|]
         end;
         split; [by left|done]).
  pose proof (exact_product m1 e1 m2 e2) as Hx.
  set (x := (inject_Z (Z.pos m1) * (2 # 1) ^ e1
             * (inject_Z (Z.pos m2) * (2 # 1) ^ e2))%Q) in *.
  assert (HK : Qfloor x = Z.shiftl (Z.pos (m1 * m2)) (e1 + e2)).
  { rewrite <- Qfloor_scale. by apply Qfloor_comp. }
  assert (HK53 : Z.shiftl (Z.pos (m1 * m2)) (e1 + e2) < 2 ^ 53).
  { rewrite <- HK. rewrite Zlt_Qlt.
    eapply Qle_lt_trans; [apply Qfloor_le|done]. }
  destruct (rounded_to_int (m1 * m2) (e1 + e2) HK53) as (n & Hn & Hbound & Hclose).
  exists n. split; [done|]. split; [|split].
  - eapply to_int_is_floor; [apply binary_round_aux_sign|done..].
  - rewrite HK. destruct Hbound as [->|(-> & He & Hz)]; [by left|right].
    split; [done|]. by eapply scaled_bound.
  - rewrite HK. intros Hq. destruct (Z.le_gt_cases 0 (e1 + e2)) as [He|He].
    + apply integer_product in Hq; [lia|done..].
    + apply Hclose; [lia|]. by eapply scaled_bound.
Qed.

(** Ten frames per second for one second make 10 frames. *)
Lemma total_frames_is_floor_or_one_more_witness :
  let f := (inject_Z 5629499534213120 * (2 # 1) ^ (-49))%Q in
  let d := (inject_Z 4503599627370496 * (2 # 1) ^ (-52))%Q in
  ∃ n, total_frames_of (fps Sample.clip) (duration Sample.clip) = Ok n
       ∧ PyFloat.floor (PyFloat.mul (fps Sample.clip) (duration Sample.clip)) = Some n
       ∧ (n = Qfloor (f * d)
          ∨ (n = Qfloor (f * d) + 1
             ∧ (inject_Z (2 ^ 53) * (inject_Z n - f * d) <= f * d)%Q))
       ∧ ((inject_Z (2 ^ 54) * (inject_Z (Qfloor (f * d) + 1) - f * d) <= f * d)%Q →
          n = Qfloor (f * d) + 1).
Proof.
  apply (total_frames_is_floor_or_one_more Sample.clip);
    [reflexivity|reflexivity|by vm_compute..].
Defined.

(** C8, the claim as stated fails.  At 25 frames per second a clip whose
    duration is the float 0.12 (a little less than 12/100) has an exact
    product a little less than 3, whose floor is 2; it is within 2^-54 of
    itself below 3, the binary64 product is 3.0, and the program counts 3
    frames and extracts three. *)
Lemma total_frames_of_25_fps_120_ms :
  ∃ f d,
    PyFloat.to_Q (fps Edge.three_frames) = Some f
    ∧ PyFloat.to_Q (duration Edge.three_frames) = Some d
    ∧ (f == 25)%Q ∧ (d < 12 # 100)%Q
    ∧ Qfloor (f * d) = 2
    ∧ (inject_Z (2 ^ 54) * (3 - f * d) <= f * d)%Q
    ∧ total_frames_of (fps Edge.three_frames) (duration Edge.three_frames) = Ok 3
    ∧ saved_files (history (main "video.mp4" PyFloat.one 180 Edge.short_video).1)
      = [["images"; "0.jpg"]; ["images"; "1.jpg"]; ["images"; "2.jpg"]].
Proof. eexists _, _. repeat split; by vm_compute. Qed.

Lemma total_frames_fps_nonzero (c : Clip) n :
  total_frames_of (fps c) (duration c) = Ok n → n ≠ 0 →
  PyFloat.is_zero (fps c) = false.
Proof.
  unfold total_frames_of, PyFloat.mul.
  destruct (fps c) as [s|s| |s m e]; try done.
  destruct (duration c) as [s'|s'| |s' m' e']; cbn [SFmul PyFloat.to_int]; try done;
    by intros [= <-].
Qed.

Lemma frame_time_defined (c : Clip) i :
  PyFloat.is_zero (fps c) = false → 0 ≤ i < 2 ^ 53 →
  ∃ t, PyFloat.int_truediv i (fps c) = Ok t.
Proof.
  intros Hz Hi. unfold PyFloat.int_truediv, PyFloat.truediv.
  destruct (of_int_small i Hi) as [x ->]. rewrite Hz. by eexists.
Qed.

Section sample_frames_run.
Context (w : World) (p : Path) (clip : Clip) (total stride max_frames : Z)
        (perc_frames : PyFloat.float).
Let d := parent p </> "images".
Let r := range_slice_to (Range 0 total stride) max_frames.

Lemma sample_frames_missing_dir :
  node_at (fs w) d = None →
  sample_frames p clip total perc_frames max_frames w
  = (log (Rmtree d) w, Raise FileNotFoundError).
Proof.
  intros Hd. unfold sample_frames. fold d. run. unfold rmtree. by rewrite Hd.
Qed.

Lemma sample_frames_run :
  node_at (fs w) d = Some Dir →
  node_at (fs w) (parent p) = Some Dir →
  frame_step_of perc_frames = Ok stride →
  Forall (λ i, ∃ t, PyFloat.int_truediv i (fps clip) = Ok t) (range_elems r) →
  sample_frames p clip total perc_frames max_frames w
  = ({| fs := write_frames clip d (range_elems r)
                (<[d := Dir]> (filter (λ kv, ¬ d `prefix_of` kv.1) (fs w)));
        lookup_error := lookup_error w;
        site := site w;
        history :=
          history w
          ++ [Rmtree d; Mkdir d; FrameStep stride; FrameIndices r;
              Print (extracting_line d)]
          ++ frame_events clip d (range_elems r)
          ++ [Print (complete_line (range_len r) d)] |},
     Normal tt).
Proof.
  intros Hd Hp Hstep Htimes. unfold d in *.
  pose proof (frame_step_of_ge_1 _ _ Hstep) as Hs.
  unfold sample_frames.
  unfold mbind at 1, M_bind at 1. rewrite rmtree_dir by done.
  unfold mbind at 1, M_bind at 1. rewrite mkdir_after_rmtree by done.
  rewrite Hstep. run. rewrite frame_indices_of_ok by done. fold r. run.
  fold (extracting_line (parent p </> "images")).
  fold (complete_line (range_len r) (parent p </> "images")).
  rewrite extract_frames_run; try done.
  - unfold set_fs, log. cbn [fs site history].
    do 2 f_equal. by rewrite <- !app_assoc.
  - cbn [fs log set_fs]. by rewrite lookup_insert_eq.
  - cbn [fs log set_fs]. intros q Hq Hne.
    by rewrite (proj2 (recreated_dir_is_empty _ _) q Hq Hne).
Qed.

End sample_frames_run.

(** A run that gets as far as sampling: the input resolves to [p], which
    MoviePy opens as [clip] with [total] frames, and the fraction is
    accepted. *)
Section extraction.
Context (w w1 : World) (path : string) (p : Path) (clip : Clip)
        (total stride max_frames : Z) (perc_frames : PyFloat.float).
Let d := parent p </> "images".
Let r := range_slice_to (Range 0 total stride) max_frames.
Hypothesis Hres : resolve_input path w = (w1, Normal p).
Hypothesis Hvid : holds_video (fs w1) p clip.
Hypothesis Htot : total_frames_of (fps clip) (duration clip) = Ok total.
Hypothesis Hvalid : PyFloat.in_unit_interval perc_frames = true.

Lemma main_reaches_sampling :
  main path perc_frames max_frames w
  = sample_frames p clip total perc_frames max_frames
      (log (FractionChecked true) (log (TotalFrames total) (log (Open p) w1))).
Proof.
  rewrite main_unfold, Hres. destruct Hvid as [-> _]. by rewrite Htot, Hvalid.
Qed.

Lemma main_extracts :
  frame_step_of perc_frames = Ok stride →
  node_at (fs w1) d = Some Dir →
  Forall (λ i, ∃ t, PyFloat.int_truediv i (fps clip) = Ok t) (range_elems r) →
  main path perc_frames max_frames w
  = ({| fs := write_frames clip d (range_elems r)
                (<[d := Dir]> (filter (λ kv, ¬ d `prefix_of` kv.1) (fs w1)));
        lookup_error := lookup_error w1;
        site := site w1;
        history :=
          history w1
          ++ [Open p; TotalFrames total; FractionChecked true;
              Rmtree d; Mkdir d; FrameStep stride; FrameIndices r;
              Print (extracting_line d)]
          ++ frame_events clip d (range_elems r)
          ++ [Print (complete_line (range_len r) d)] |},
     Normal tt).
Proof.
  intros Hstep Hdir Htimes. rewrite main_reaches_sampling.
  rewrite (sample_frames_run _ _ _ _ stride); try done; [|by destruct Hvid].
  cbn [fs site history log]. fold d r. do 2 f_equal.
  by rewrite <- !app_assoc.
Qed.

Lemma sampled_timestamps_defined :
  frame_step_of perc_frames = Ok stride →
  total ≤ 2 ^ 53 →
  Forall (λ i, ∃ t, PyFloat.int_truediv i (fps clip) = Ok t) (range_elems r).
Proof.
  intros Hstep Hbound. apply Forall_forall. intros i Hi.
  apply sampled_index_bounds in Hi; [|by eapply frame_step_of_ge_1].
  apply frame_time_defined; [|lia].
  eapply total_frames_fps_nonzero; [done|lia].
Qed.

End extraction.

Lemma saved_files_resolution evs :
  Forall (λ e, stage_of e = None ∨ stage_of e = Some InputResolution) evs →
  saved_files evs = [].
Proof.
  induction 1 as [|e evs He _ IH]; [done|].
  unfold saved_files in *. by destruct e, He; cbn [omap list_omap]; rewrite ?IH.
Qed.

Lemma resolved_without_error w w1 path p :
  resolve_input path w = (w1, Normal p) →
  ∃ evs, history w1 = history w ++ evs ∧ no_error_reported evs
         ∧ saved_files evs = [].
Proof.
  intros Hres.
  destruct (resolve_input_outcome w path)
    as (w1' & s & evs & Hr & Hh & Hst & _ & _ & Hs).
  rewrite Hres in Hr. injection Hr as <- <-.
  eauto using saved_files_resolution.
Qed.

(** C1, where the code departs from the claim.  The claim has every run that
    passes input resolution and the fraction check recreate the output
    directory, whether or not it was there, without crashing.  When the
    [images] folder is not there, the unconditional [shutil.rmtree] raises
    [FileNotFoundError]: the run ends at that step, and the file system is
    as it was, with no directory created. *)
Theorem missing_output_dir_crashes w w1 path p clip total perc_frames max_frames :
  resolve_input path w = (w1, Normal p) →
  holds_video (fs w1) p clip →
  total_frames_of (fps clip) (duration clip) = Ok total →
  PyFloat.in_unit_interval perc_frames = true →
  node_at (fs w1) (parent p </> "images") = None →
  ∃ w',
    main path perc_frames max_frames w = (w', Raise FileNotFoundError)
    ∧ fs w' = fs w1
    ∧ new_events w1 w'
      = [Open p; TotalFrames total; FractionChecked true;
         Rmtree (parent p </> "images")].
Proof.
  intros Hres Hvid Htot Hvalid Hdir. eexists.
  split; [|split].
  - rewrite (main_reaches_sampling w w1 path p clip total) by done.
    by apply sample_frames_missing_dir.
  - done.
  - apply new_events_app. cbn [history log]. by rewrite <- !app_assoc.
Qed.

(** The first run ever on [video.mp4]. *)
Lemma missing_output_dir_crashes_witness :
  let w1 := log (Exists ["video.mp4"]) Sample.first_run in
  ∃ w',
    main "video.mp4" PyFloat.one 180 Sample.first_run = (w', Raise FileNotFoundError)
    ∧ fs w' = fs w1
    ∧ new_events w1 w'
      = [Open ["video.mp4"]; TotalFrames 10; FractionChecked true; Rmtree ["images"]].
Proof.
  apply (missing_output_dir_crashes
           Sample.first_run (log (Exists ["video.mp4"]) Sample.first_run)
           "video.mp4" ["video.mp4"] Sample.clip 10 PyFloat.one 180);
    try reflexivity.
  split; reflexivity.
Defined.

(** X9.  An output directory that is there is emptied before the frames go
    in: after the run it exists and holds nothing but the new frames. *)
Lemma output_dir_holds_only_new_frames
    w w1 path p clip total stride max_frames perc_frames :
  resolve_input path w = (w1, Normal p) →
  holds_video (fs w1) p clip →
  total_frames_of (fps clip) (duration clip) = Ok total →
  total ≤ 2 ^ 53 →
  PyFloat.in_unit_interval perc_frames = true →
  frame_step_of perc_frames = Ok stride →
  node_at (fs w1) (parent p </> "images") = Some Dir →
  let output_dir := parent p </> "images" in
  let frame_indices := range_slice_to (Range 0 total stride) max_frames in
  let m := fs (main path perc_frames max_frames w).1 in
  m !! output_dir = Some Dir
  ∧ ∀ q, output_dir `prefix_of` q → q ≠ output_dir →
      q ∉ frame_file output_dir <$> range_elems frame_indices →
      m !! q = None.
Proof.
  intros Hres Hvid Htot Hbound Hvalid Hstep Hdir output_dir r.
  pose proof (sampled_timestamps_defined clip total stride max_frames perc_frames
                Htot Hstep Hbound) as Htimes.
  rewrite (main_extracts w w1 path p clip total stride) by done.
  cbn [fst fs]. fold output_dir r.
  assert (Hother : ∀ q, q ∉ frame_file output_dir <$> range_elems r →
            ∀ i, i ∈ range_elems r → q ≠ frame_file output_dir i).
  { intros q Hout i Hi ->. apply Hout. by apply list_elem_of_fmap_2. }
  split.
  - rewrite write_frames_lookup_other; [apply recreated_dir_is_empty|].
    intros i _ H%(f_equal length). unfold frame_file, joinpath in H.
    rewrite length_app in H. simpl in H. lia.
  - intros q Hq Hne Hout. rewrite write_frames_lookup_other by auto.
    by apply recreated_dir_is_empty.
Qed.

(** C9.  In a run that reaches extraction, for every sampled frame index the
    program decodes the frame at the timestamp index / frame_rate, encodes it
    as JPEG and writes it to [<output_dir>/<index>.jpg]; after the loop it
    reports a count equal to the number of sampled indices, which is the
    number of files written. *)
Theorem every_sampled_frame_is_written
    w w1 path p clip total stride max_frames perc_frames :
  resolve_input path w = (w1, Normal p) →
  holds_video (fs w1) p clip →
  total_frames_of (fps clip) (duration clip) = Ok total →
  total ≤ 2 ^ 53 →
  PyFloat.in_unit_interval perc_frames = true →
  frame_step_of perc_frames = Ok stride →
  node_at (fs w1) (parent p </> "images") = Some Dir →
  let output_dir := parent p </> "images" in
  ∃ w' frame_indices,
    main path perc_frames max_frames w = (w', Normal tt)
    ∧ frame_indices_of total stride max_frames = Ok frame_indices
    ∧ (∀ fnum, fnum ∈ range_elems frame_indices →
         PyFloat.int_truediv fnum (fps clip) = Ok (frame_time clip fnum)
         ∧ fs w' !! frame_file output_dir fnum
           = Some (File (Jpeg (get_frame clip (frame_time clip fnum)))))
    ∧ new_events w1 w'
      = [Open p; TotalFrames total; FractionChecked true;
         Rmtree output_dir; Mkdir output_dir;
         FrameStep stride; FrameIndices frame_indices;
         Print (extracting_line output_dir)]
        ++ frame_events clip output_dir (range_elems frame_indices)
        ++ [Print (complete_line (Z.of_nat (length (range_elems frame_indices)))
                     output_dir)]
    ∧ saved_files (new_events w1 w')
      = frame_file output_dir <$> range_elems frame_indices.
Proof.
  intros Hres Hvid Htot Hbound Hvalid Hstep Hdir output_dir.
  pose proof (frame_step_of_ge_1 _ _ Hstep) as Hs.
  pose proof (sampled_timestamps_defined clip total stride max_frames perc_frames
                Htot Hstep Hbound) as Htimes.
  eexists _, _. split; [by apply (main_extracts w w1 path p clip total stride)|].
  split; [by apply frame_indices_of_ok|].
  set (r := range_slice_to _ _) in *. fold output_dir.
  split; [|split].
  - intros i Hi. cbn [fs]. split.
    + rewrite Forall_forall in Htimes. destruct (Htimes i Hi) as [t Ht].
      unfold frame_time. by rewrite Ht.
    + by apply write_frames_lookup_in.
  - rewrite length_range_elems. by apply new_events_app.
  - erewrite new_events_app by done. unfold saved_files.
    rewrite !omap_app. fold (saved_files (frame_events clip output_dir (range_elems r))).
    by rewrite saved_files_frame_events, app_nil_r.
Qed.

(** Every second frame of the sample clip, three at most. *)
Lemma every_sampled_frame_is_written_witness :
  let w1 := log (Exists ["video.mp4"]) Sample.second_run in
  let output_dir := parent ["video.mp4"] </> "images" in
  ∃ w' frame_indices,
    main "video.mp4" Sample.half 3 Sample.second_run = (w', Normal tt)
    ∧ frame_indices_of 10 2 3 = Ok frame_indices
    ∧ (∀ fnum, fnum ∈ range_elems frame_indices →
         PyFloat.int_truediv fnum (fps Sample.clip) = Ok (frame_time Sample.clip fnum)
         ∧ fs w' !! frame_file output_dir fnum
           = Some (File (Jpeg (get_frame Sample.clip (frame_time Sample.clip fnum)))))
    ∧ new_events w1 w'
      = [Open ["video.mp4"]; TotalFrames 10; FractionChecked true;
         Rmtree output_dir; Mkdir output_dir;
         FrameStep 2; FrameIndices frame_indices;
         Print (extracting_line output_dir)]
        ++ frame_events Sample.clip output_dir (range_elems frame_indices)
        ++ [Print (complete_line (Z.of_nat (length (range_elems frame_indices)))
                     output_dir)]
    ∧ saved_files (new_events w1 w')
      = frame_file output_dir <$> range_elems frame_indices.
Proof.
  apply (every_sampled_frame_is_written
           Sample.second_run (log (Exists ["video.mp4"]) Sample.second_run)
           "video.mp4" ["video.mp4"] Sample.clip 10 2 3 Sample.half);
    try reflexivity.
  - split; reflexivity.
  - lia.
Defined.

(** C10.  The maximum frame count is never validated.  With max_frames = 0
    the run goes through without an error message, recreates the output
    directory and writes no frame into it.  With a negative max_frames the
    run goes through as well and extracts max(0, N + max_frames) frames, N
    being the number of strided indices below the total frame count: the
    last |max_frames| of them are dropped, and the output directory ends up
    holding the JPEG files of the others and nothing else. *)
Theorem max_frames_is_not_validated
    w w1 path p clip total stride perc_frames :
  resolve_input path w = (w1, Normal p) →
  holds_video (fs w1) p clip →
  total_frames_of (fps clip) (duration clip) = Ok total →
  PyFloat.in_unit_interval perc_frames = true →
  frame_step_of perc_frames = Ok stride →
  node_at (fs w1) (parent p </> "images") = Some Dir →
  let output_dir := parent p </> "images" in
  let N := Z.of_nat (length (strided total stride)) in
  (∃ w',
     main path perc_frames 0 w = (w', Normal tt)
     ∧ no_error_reported (new_events w w')
     ∧ empty_dir (fs w') output_dir
     ∧ saved_files (new_events w w') = [])
  ∧ (∀ max_frames, max_frames < 0 → total ≤ 2 ^ 53 →
     let extracted := take (Z.to_nat (N + max_frames)) (strided total stride) in
     ∃ w',
       main path perc_frames max_frames w = (w', Normal tt)
       ∧ no_error_reported (new_events w w')
       ∧ saved_files (new_events w w') = frame_file output_dir <$> extracted
       ∧ Z.of_nat (length (saved_files (new_events w w')))
         = Z.max 0 (N + max_frames)
       ∧ Z.of_nat (length extracted) = Z.max 0 (N + max_frames)
       ∧ NoDup (frame_file output_dir <$> extracted)
       ∧ fs w' !! output_dir = Some Dir
       ∧ (∀ fnum, fnum ∈ extracted →
            fs w' !! frame_file output_dir fnum
            = Some (File (Jpeg (get_frame clip (frame_time clip fnum)))))
       ∧ (∀ q, output_dir `prefix_of` q → q ≠ output_dir →
            q ∉ frame_file output_dir <$> extracted → fs w' !! q = None)).
Proof.
  intros Hres Hvid Htot Hvalid Hstep Hdir output_dir N.
  pose proof (frame_step_of_ge_1 _ _ Hstep) as Hs.
  destruct (resolved_without_error _ _ _ _ Hres) as (evs0 & Hh0 & Hne0 & Hsv0).
  assert (Hrun : ∀ max_frames,
    Forall (λ i, ∃ t, PyFloat.int_truediv i (fps clip) = Ok t)
      (range_elems (range_slice_to (Range 0 total stride) max_frames)) →
    ∃ w', main path perc_frames max_frames w = (w', Normal tt)
      ∧ no_error_reported (new_events w w')
      ∧ saved_files (new_events w w')
        = frame_file output_dir
            <$> range_elems (range_slice_to (Range 0 total stride) max_frames)
      ∧ fs w' = write_frames clip output_dir
                  (range_elems (range_slice_to (Range 0 total stride) max_frames))
                  (<[output_dir := Dir]>
                     (filter (λ kv, ¬ output_dir `prefix_of` kv.1) (fs w1)))).
  { intros max_frames Htimes. eexists.
    split; [by apply (main_extracts w w1 path p clip total stride)|].
    fold output_dir. cbn [fs].
    set (r := range_slice_to _ _) in *.
    erewrite new_events_app; last first.
    { cbn [history]. rewrite Hh0, <- app_assoc. done. }
    split; [|split; [|done]].
    - apply Forall_app. split; [done|].
      apply Forall_app. split; [by repeat (apply Forall_cons_2; [done|])|].
      apply Forall_app. split; [apply no_error_frame_events|].
      by repeat (apply Forall_cons_2; [done|]).
    - unfold saved_files. rewrite !omap_app.
      fold (saved_files evs0). 
      fold (saved_files (frame_events clip output_dir (range_elems r))).
      rewrite saved_files_frame_events.
      by rewrite Hsv0, app_nil_r. }
  split.
  - destruct (Hrun 0) as (w' & Hmain & Hne & Hsaved & Hfs).
    { rewrite range_elems_slice by done. simpl. apply Forall_nil_2. }
    exists w'. rewrite range_elems_slice in Hsaved, Hfs by done.
    simpl in Hsaved, Hfs. rewrite Hfs.
    repeat split; try done; apply recreated_dir_is_empty.
  - intros max_frames Hneg Hbound extracted.
    destruct (Hrun max_frames) as (w' & Hmain & Hne & Hsaved & Hfs).
    { by eapply sampled_timestamps_defined. }
    exists w'. rewrite range_elems_slice in Hsaved, Hfs by done.
    destruct (Z.ltb_spec max_frames 0); [|lia].
    rewrite <- length_strided in Hsaved, Hfs by done. fold N in Hsaved, Hfs.
    rewrite Z.add_comm in Hsaved, Hfs. fold extracted in Hsaved, Hfs.
    assert (Hlen : Z.of_nat (length extracted) = Z.max 0 (N + max_frames)).
    { unfold extracted. rewrite length_take. lia. }
    assert (Hother : ∀ q, q ∉ frame_file output_dir <$> extracted →
              ∀ i, i ∈ extracted → q ≠ frame_file output_dir i).
    { intros q Hout i Hi ->. apply Hout. by apply list_elem_of_fmap_2. }
    do 3 (split; [done|]).
    split; [by rewrite Hsaved, length_fmap|]. split; [done|].
    split; [|split; [|split]].
    + apply NoDup_fmap_2_strong; [intros i j _ _; apply frame_file_inj|].
      eapply sublist_NoDup; [|apply sublist_take].
      apply NoDup_filter, NoDup_seqZ.
    + rewrite Hfs, write_frames_lookup_other; [apply recreated_dir_is_empty|].
      intros i _ Heq%(f_equal length). unfold frame_file, joinpath in Heq.
      rewrite length_app in Heq. simpl in Heq. lia.
    + intros i Hi. rewrite Hfs. by apply write_frames_lookup_in.
    + intros q Hq Hne' Hout. rewrite Hfs, write_frames_lookup_other by auto.
      by apply recreated_dir_is_empty.
Qed.

(** Five strided indices; a cap of 0, and every negative cap. *)
Lemma max_frames_is_not_validated_witness :
  let output_dir := parent ["video.mp4"] </> "images" in
  let N := Z.of_nat (length (strided 10 2)) in
  (∃ w',
     main "video.mp4" Sample.half 0 Sample.second_run = (w', Normal tt)
     ∧ no_error_reported (new_events Sample.second_run w')
     ∧ empty_dir (fs w') output_dir
     ∧ saved_files (new_events Sample.second_run w') = [])
  ∧ (∀ max_frames, max_frames < 0 → 10 ≤ 2 ^ 53 →
     let extracted := take (Z.to_nat (N + max_frames)) (strided 10 2) in
     ∃ w',
       main "video.mp4" Sample.half max_frames Sample.second_run = (w', Normal tt)
       ∧ no_error_reported (new_events Sample.second_run w')
       ∧ saved_files (new_events Sample.second_run w')
         = frame_file output_dir <$> extracted
       ∧ Z.of_nat (length (saved_files (new_events Sample.second_run w')))
         = Z.max 0 (N + max_frames)
       ∧ Z.of_nat (length extracted) = Z.max 0 (N + max_frames)
       ∧ NoDup (frame_file output_dir <$> extracted)
       ∧ fs w' !! output_dir = Some Dir
       ∧ (∀ fnum, fnum ∈ extracted →
            fs w' !! frame_file output_dir fnum
            = Some (File (Jpeg (get_frame Sample.clip
                                  (frame_time Sample.clip fnum)))))
       ∧ (∀ q, output_dir `prefix_of` q → q ≠ output_dir →
            q ∉ frame_file output_dir <$> extracted → fs w' !! q = None)).
Proof.
  apply (max_frames_is_not_validated
           Sample.second_run (log (Exists ["video.mp4"]) Sample.second_run)
           "video.mp4" ["video.mp4"] Sample.clip 10 2 Sample.half);
    try reflexivity.
  split; reflexivity.
Defined.

(** ** The order of the stages *)

Lemma in_order_nil lo hi : in_order lo hi [].
Proof. split; [constructor|apply Forall_nil_2]. Qed.

Lemma in_order_app lo mid hi evs1 evs2 :
  (lo ≤ mid ≤ hi)%nat →
  in_order lo mid evs1 → in_order mid hi evs2 → in_order lo hi (evs1 ++ evs2).
Proof.
  intros Hm [Hs1 Hb1] [Hs2 Hb2]. unfold in_order, stages. rewrite omap_app.
  fold (stages evs1) (stages evs2). rewrite Forall_forall in Hb1, Hb2. split.
  - apply StronglySorted_app_2; [|done..].
    intros x1 x2 H1%Hb1 H2%Hb2. lia.
  - apply Forall_app. rewrite !Forall_forall.
    split; [intros x H%Hb1|intros x H%Hb2]; lia.
Qed.

Lemma in_order_weaken lo hi lo' hi' evs :
  (lo' ≤ lo)%nat → (hi ≤ hi')%nat → in_order lo hi evs → in_order lo' hi' evs.
Proof.
  intros ? ? [Hs Hb]. split; [done|].
  eapply Forall_impl; [done|]. simpl. lia.
Qed.

Lemma in_order_step lo hi e s :
  stage_of e = Some s → (lo ≤ stage_rank s ≤ hi)%nat → in_order lo hi [e].
Proof.
  intros He Hr. unfold in_order, stages. simpl. rewrite He. simpl.
  split; [repeat constructor|]. by apply Forall_cons_2; [|apply Forall_nil_2].
Qed.

Lemma in_order_print lo hi line : in_order lo hi [Print line].
Proof. apply in_order_nil. Qed.

Lemma in_order_resolution evs :
  Forall (λ e, stage_of e = None ∨ stage_of e = Some InputResolution) evs →
  in_order 0 0 evs.
Proof.
  induction 1 as [|e evs He _ IH]; [apply in_order_nil|].
  apply (in_order_app 0 0 0 [e]); [lia| |done].
  destruct He as [He|He]; [|by eapply in_order_step].
  split; unfold stages; simpl; rewrite He; [constructor|apply Forall_nil_2].
Qed.

Lemma resolution_stage evs e s :
  Forall (λ e, stage_of e = None ∨ stage_of e = Some InputResolution) evs →
  e ∈ evs → stage_of e = Some s → s = InputResolution.
Proof.
  rewrite Forall_forall. intros Hall He Hs.
  destruct (Hall e He) as [H|H]; congruence.
Qed.

Lemma emits_weaken {A} lo hi lo' hi' (m : M A) :
  (lo' ≤ lo)%nat → (hi ≤ hi')%nat → emits lo hi m → emits lo' hi' m.
Proof.
  intros ? ? Hm w. destruct (Hm w) as (evs & ? & ?).
  eauto using in_order_weaken.
Qed.

Lemma emits_ret {A} lo hi (a : A) : emits lo hi (mret a).
Proof. intros w. exists []. split; [by rewrite app_nil_r|apply in_order_nil]. Qed.

Lemma emits_eval {A} lo hi (r : result A) : emits lo hi (eval r).
Proof.
  intros w. exists []. split; [|apply in_order_nil].
  destruct r; by rewrite app_nil_r.
Qed.

Lemma emits_bind {A B} lo mid hi (m : M A) (f : A → M B) :
  (lo ≤ mid ≤ hi)%nat →
  emits lo mid m → (∀ a, emits mid hi (f a)) → emits lo hi (m ≫= f).
Proof.
  intros Hm Hem Hef w. unfold mbind, M_bind.
  destruct (Hem w) as (evs1 & Hh1 & Ho1).
  destruct (m w) as [w1 [a| |e]]; simpl in Hh1.
  - destruct (Hef a w1) as (evs2 & Hh2 & Ho2).
    exists (evs1 ++ evs2). rewrite Hh2, Hh1, app_assoc.
    eauto using in_order_app.
  - exists evs1. split; [done|]. eapply in_order_weaken; [| |done]; lia.
  - exists evs1. split; [done|]. eapply in_order_weaken; [| |done]; lia.
Qed.

Lemma emits_log {A} lo hi e s (m : M A) :
  stage_of e = Some s → (lo ≤ stage_rank s ≤ hi)%nat →
  (∀ w, history (m w).1 = history w ++ [e]) → emits lo hi m.
Proof. intros He Hr Hm w. exists [e]. eauto using in_order_step. Qed.

Lemma emits_print lo hi line : emits lo hi (print line).
Proof. intros w. exists [Print line]. split; [done|apply in_order_print]. Qed.

Lemma emits_compute {A} lo hi s (ev : A → event) (r : result A) :
  (∀ a, stage_of (ev a) = Some s) → (lo ≤ stage_rank s ≤ hi)%nat →
  emits lo hi (compute ev r).
Proof.
  intros He Hr w. destruct r as [a|e]; simpl.
  - exists [ev a]. eauto using in_order_step.
  - exists []. split; [by rewrite app_nil_r|apply in_order_nil].
Qed.

Lemma emits_rmtree d : emits 3 3 (rmtree d).
Proof.
  apply (emits_log _ _ (Rmtree d) OutputDirectory); [done|simpl; lia|].
  intros w. unfold rmtree. by destruct (node_at _ _) as [[|?]|].
Qed.

Lemma emits_mkdir d : emits 3 3 (mkdir d).
Proof.
  apply (emits_log _ _ (Mkdir d) OutputDirectory); [done|simpl; lia|].
  intros w. unfold mkdir. destruct (node_at _ d) as [?|]; [done|].
  by destruct (node_at _ _) as [[|?]|].
Qed.

Lemma emits_get_frame clip t : emits 5 5 (clip_get_frame clip t).
Proof. by apply (emits_log _ _ (GetFrame t) Extraction); [|simpl; lia|]. Qed.

Lemma emits_save img q : emits 5 5 (save img q).
Proof.
  apply (emits_log _ _ (Save q) Extraction); [done|simpl; lia|].
  intros w. unfold save.
  destruct (node_at _ q) as [[|?]|]; [done|..]; by destruct (node_at _ _) as [[|?]|].
Qed.

Lemma emits_for_each {A} k (l : list A) (body : A → M unit) :
  (∀ x, emits k k (body x)) → emits k k (for_each l body).
Proof.
  intros Hb. induction l as [|x l IH]; simpl; [apply emits_ret|].
  by apply (emits_bind k k k); [lia| |].
Qed.

Lemma emits_sample_frames p clip total perc_frames max_frames :
  emits 3 5 (sample_frames p clip total perc_frames max_frames).
Proof.
  unfold sample_frames.
  apply (emits_bind 3 3 5); [lia|apply emits_rmtree|intros _].
  apply (emits_bind 3 3 5); [lia|apply emits_mkdir|intros _].
  apply (emits_bind 3 4 5); [lia|by apply (emits_compute _ _ Sampling); [|simpl; lia]|].
  intros frame_step.
  apply (emits_bind 4 4 5); [lia|by apply (emits_compute _ _ Sampling); [|simpl; lia]|].
  intros frame_indices.
  apply (emits_bind 4 4 5); [lia|apply emits_print|intros _].
  apply (emits_bind 4 5 5); [lia| |intros _; apply emits_print].
  apply (emits_weaken 5 5 4 5); [lia..|]. apply emits_for_each. intros fnum.
  unfold extract_frame.
  apply (emits_bind 5 5 5); [lia|apply emits_eval|intros t].
  apply (emits_bind 5 5 5); [lia|apply emits_get_frame|intros img].
  apply emits_save.
Qed.

Lemma resolution_events_leave_output evs :
  Forall (λ e, stage_of e = None ∨ stage_of e = Some InputResolution) evs →
  Forall (λ e, touches_output e = false) evs.
Proof. intros H. eapply Forall_impl; [done|]. by intros [] [|]. Qed.

Lemma reports_error_app evs1 evs2 :
  evs2 ≠ [] → reports_error evs2 → reports_error (evs1 ++ evs2).
Proof.
  intros Hne (line & Hlast & Herr). exists line. split; [|done].
  destruct evs2 as [|e evs2] using rev_ind; [done|].
  rewrite app_assoc, last_snoc. by rewrite last_snoc in Hlast.
Qed.

(** C4, as amended.  For every fraction outside (0, 1] no frame is
    extracted and the output directory is neither destroyed nor created (the
    file system changes at most by the downloaded file); the run ends either
    with an error message and an early return, or with an exception raised
    before the fraction is looked at: while the video is opened and its
    frames are counted, or by [exists] on a local path whose lookup is
    refused.  Whenever the input resolves to a video that opens and whose
    frames can be counted, the run reports the invalid fraction and returns
    early. *)
Theorem invalid_fraction_leaves_output_alone w path perc_frames max_frames :
  PyFloat.in_unit_interval perc_frames = false →
  ∃ w' s evs,
    main path perc_frames max_frames w = (w', s)
    ∧ history w' = history w ++ evs
    ∧ Forall (λ e, touches_output e = false) evs
    ∧ (∀ q, q ≠ downloaded_video → fs w' !! q = fs w !! q)
    ∧ match s with
      | Return => reports_error evs
      | Raise e => (∃ p, last evs = Some (Open p)) ∨ lookup_refused w path e
      | Normal _ => False
      end
    ∧ (∀ w1 p clip n,
         resolve_input path w = (w1, Normal p) →
         node_at (fs w1) p = Some (File (Video clip)) →
         total_frames_of (fps clip) (duration clip) = Ok n →
         s = Return
         ∧ last evs = Some (Print "Error: perc_frames must be between 0 and 1.")).
Proof.
  intros Hinvalid.
  destruct (resolve_input_outcome w path)
    as (w1 & s0 & evs0 & Hr & Hh & Hst & Hfs & _ & Hs0).
  apply resolution_events_leave_output in Hst.
  rewrite main_unfold, Hr, Hinvalid.
  destruct s0 as [p| |e];
    [|by exists w1, Return, evs0; destruct Hs0 as [? ->]
     |exists w1, (Raise e), evs0; destruct Hs0 as (_ & _ & Href);
      do 4 (split; [done|]); split; [by right|done]].
  assert (Hopen : ∀ e : exn,
    ∃ w' s evs, (log (Open p) w1, Raise (A:=unit) e) = (w', s)
      ∧ history w' = history w ++ evs
      ∧ Forall (λ e, touches_output e = false) evs
      ∧ (∀ q, q ≠ downloaded_video → fs w' !! q = fs w !! q)
      ∧ match s with
        | Return => reports_error evs
        | Raise e => (∃ p, last evs = Some (Open p)) ∨ lookup_refused w path e
        | Normal _ => False
        end).
  { intros e. eexists _, _, (evs0 ++ [Open p]). split; [done|].
    split; [by cbn [history log]; rewrite Hh, app_assoc|].
    split; [by apply Forall_app; split; [|apply Forall_cons_2; [|apply Forall_nil_2]]|].
    split; [done|]. left. exists p. by rewrite last_snoc. }
  destruct (node_at (fs w1) p) as [[|[clip|img|]]|] eqn:Hnode;
    try (destruct (Hopen OSError) as (w' & s & evs & ? & ? & ? & ? & ?);
         exists w', s, evs; do 5 (split; [done|]);
         by intros w1' p' clip' n' [= <- <-]; rewrite Hnode).
  destruct (total_frames_of _ _) as [n|e] eqn:Htot.
  - eexists _, _, (evs0 ++ [Open p; TotalFrames n; FractionChecked false; Print _]).
    split; [done|]. split; [cbn [history log]; rewrite Hh, <- !app_assoc; done|].
    split; [by apply Forall_app; split;
              [|repeat (apply Forall_cons_2; [done|]); apply Forall_nil_2]|].
    split; [done|]. split.
    + apply reports_error_app; [done|]. by eexists.
    + intros w1' p' clip' n' [= <- <-]. rewrite Hnode. intros [= <-].
      rewrite Htot. intros [= <-]. split; [done|].
      by rewrite (last_app_cons evs0 [_; _; _]).
  - destruct (Hopen e) as (w' & s & evs & Heq & ? & ? & ? & ?).
    exists w', s, evs. do 5 (split; [done|]).
    intros w1' p' clip' n' [= <- <-]. rewrite Hnode. intros [= <-].
    by rewrite Htot.
Qed.

(** The fraction 1.5. *)
Lemma invalid_fraction_leaves_output_alone_witness :
  ∃ w' s evs,
    main "video.mp4" Sample.one_and_half 180 Sample.second_run = (w', s)
    ∧ history w' = history Sample.second_run ++ evs
    ∧ Forall (λ e, touches_output e = false) evs
    ∧ (∀ q, q ≠ downloaded_video → fs w' !! q = fs Sample.second_run !! q)
    ∧ match s with
      | Return => reports_error evs
      | Raise e => (∃ p, last evs = Some (Open p))
                   ∨ lookup_refused Sample.second_run "video.mp4" e
      | Normal _ => False
      end
    ∧ (∀ w1 p clip n,
         resolve_input "video.mp4" Sample.second_run = (w1, Normal p) →
         node_at (fs w1) p = Some (File (Video clip)) →
         total_frames_of (fps clip) (duration clip) = Ok n →
         s = Return
         ∧ last evs = Some (Print "Error: perc_frames must be between 0 and 1.")).
Proof.
  apply (invalid_fraction_leaves_output_alone
           Sample.second_run "video.mp4" Sample.one_and_half 180).
  reflexivity.
Defined.

(** C4, the claim as stated fails.  With the fraction 0 and a file that is
    not a video, MoviePy's [OSError] ends the run before the fraction is
    checked: nothing is reported and the run does not return early. *)
Lemma invalid_fraction_crash_is_not_a_report :
  ∃ w',
    PyFloat.in_unit_interval PyFloat.zero = false
    ∧ main "notes.txt" PyFloat.zero 180 Sample.not_a_video = (w', Raise OSError)
    ∧ history w' = [Exists ["notes.txt"]; Open ["notes.txt"]]
    ∧ ¬ reports_error (history w').
Proof.
  eexists. split; [done|]. split; [done|]. split; [done|].
  by intros (line & [= ] & _).
Qed.

(** C5, as amended.  In every run the steps occur in the order: input
    resolution, then opening the video and counting its frames, then the
    fraction check, then the output directory, then stride and frame indices,
    then extraction.  The total frame count is computed before the fraction
    is checked; the stride, the frame indices and every later step come only
    after the check has accepted the fraction. *)
Theorem stages_run_in_order w path perc_frames max_frames :
  ∃ evs,
    history (main path perc_frames max_frames w).1 = history w ++ evs
    ∧ StronglySorted le (stages evs)
    ∧ (∀ ok, FractionChecked ok ∈ evs → ∃ n, TotalFrames n ∈ evs)
    ∧ (∀ e s, e ∈ evs → stage_of e = Some s → (3 ≤ stage_rank s)%nat →
         FractionChecked true ∈ evs).
Proof.
  destruct (resolve_input_outcome w path)
    as (w1 & s0 & evs0 & Hr & Hh & Hst & _ & _ & Hs0).
  pose proof (in_order_resolution _ Hst) as Ho0.
  pose proof (λ e s, resolution_stage evs0 e s Hst) as Hres.
  rewrite main_unfold, Hr.
  assert (Hearly : ∀ evs1,
    in_order 1 2 evs1 →
    (∀ ok, FractionChecked ok ∈ evs1 → ∃ n, TotalFrames n ∈ evs1) →
    StronglySorted le (stages (evs0 ++ evs1))
    ∧ (∀ ok, FractionChecked ok ∈ evs0 ++ evs1 → ∃ n, TotalFrames n ∈ evs0 ++ evs1)
    ∧ (∀ e s, e ∈ evs0 ++ evs1 → stage_of e = Some s → (3 ≤ stage_rank s)%nat →
         FractionChecked true ∈ evs0 ++ evs1)).
  { intros evs1 Ho1 Hfc. split; [|split].
    - eapply (in_order_app 0 0 2); [lia|done|].
      eapply in_order_weaken; [| |done]; lia.
    - intros ok [Hin|Hin]%elem_of_app.
      + by specialize (Hres _ Validation Hin eq_refl).
      + destruct (Hfc ok Hin) as [n Hn]. exists n. apply elem_of_app. by right.
    - intros e s [Hin|Hin]%elem_of_app Hs Hrank.
      + rewrite (Hres _ _ Hin Hs) in Hrank. simpl in Hrank. lia.
      + destruct Ho1 as [_ Hb]. rewrite Forall_forall in Hb.
        specialize (Hb (stage_rank s)). unfold stages in Hb.
        rewrite list_elem_of_omap in Hb.
        destruct Hb; [|lia]. exists e. by rewrite Hs. }
  assert (Hnone : in_order 1 2 [] ∧
            ∀ ok, FractionChecked ok ∈ @nil event → ∃ n, TotalFrames n ∈ @nil event).
  { split; [apply in_order_nil|]. by intros ? ?%elem_of_nil. }
  destruct s0 as [p| |e];
    [|exists (evs0 ++ []);
      split; [by cbn [fst]; rewrite app_nil_r|apply Hearly; apply Hnone]..].
  assert (Hopen : in_order 1 2 [Open p] ∧
            ∀ ok, FractionChecked ok ∈ [Open p] → ∃ n, TotalFrames n ∈ [Open p]).
  { split; [by eapply in_order_step; [done|simpl; lia]|].
    intros ok Hin. by apply list_elem_of_singleton in Hin. }
  destruct (node_at (fs w1) p) as [[|[clip|img|]]|] eqn:Hnode;
    try (exists (evs0 ++ [Open p]);
         split; [by cbn [fst history log]; rewrite Hh, app_assoc|];
         apply Hearly; apply Hopen).
  destruct (total_frames_of _ _) as [n|e] eqn:Htot;
    [|exists (evs0 ++ [Open p]);
      split; [by cbn [fst history log]; rewrite Hh, app_assoc|];
      apply Hearly; apply Hopen].
  cbv zeta. destruct (PyFloat.in_unit_interval perc_frames).
  - destruct (emits_sample_frames p clip n perc_frames max_frames
                (log (FractionChecked true) (log (TotalFrames n) (log (Open p) w1))))
      as (evs2 & Hh2 & Ho2).
    exists (evs0 ++ [Open p; TotalFrames n; FractionChecked true] ++ evs2).
    split; [rewrite Hh2; cbn [history log]; rewrite Hh, <- !app_assoc; done|].
    assert (FractionChecked true ∈ 
              evs0 ++ [Open p; TotalFrames n; FractionChecked true] ++ evs2).
    { apply elem_of_app. right. apply elem_of_app. left. repeat constructor. }
    assert (TotalFrames n ∈ 
              evs0 ++ [Open p; TotalFrames n; FractionChecked true] ++ evs2).
    { apply elem_of_app. right. apply elem_of_app. left. repeat constructor. }
    split; [|by eauto].
    eapply (in_order_app 0 0 5); [lia|done|].
    eapply (in_order_app 0 2 5); [lia| |by eapply in_order_weaken; [| |done]; lia].
    apply (in_order_app 0 1 2 [Open p]); [lia|by eapply in_order_step; [done|simpl; lia]|].
    apply (in_order_app 1 1 2 [TotalFrames n]);
      [lia|by eapply in_order_step; [done|simpl; lia]|].
    by eapply in_order_step; [done|simpl; lia].
  - exists (evs0 ++ [Open p; TotalFrames n; FractionChecked false;
                     Print "Error: perc_frames must be between 0 and 1."]).
    split; [cbn [fst history log]; rewrite Hh, <- !app_assoc; done|].
    apply Hearly.
    + apply (in_order_app 1 1 2 [Open p]); [lia|by eapply in_order_step; [done|simpl; lia]|].
      apply (in_order_app 1 1 2 [TotalFrames n]);
        [lia|by eapply in_order_step; [done|simpl; lia]|].
      apply (in_order_app 1 2 2 [FractionChecked false]);
        [lia|by eapply in_order_step; [done|simpl; lia]|apply in_order_print].
    + intros ok _. exists n. repeat constructor.
Qed.

(** C5, the claim as stated fails.  In a run with the fraction 1.5 the total
    frame count, 10, is computed and only then is the fraction checked and
    refused. *)
Lemma total_frames_precede_validation :
  let h := history (main "video.mp4" Sample.one_and_half 180 Sample.second_run).1 in
  h = [Exists ["video.mp4"]; Open ["video.mp4"]; TotalFrames 10;
       FractionChecked false; Print "Error: perc_frames must be between 0 and 1."]
  ∧ ∃ i j, (i < j)%nat ∧ h !! i = Some (TotalFrames 10)
           ∧ h !! j = Some (FractionChecked false).
Proof. split; [done|]. exists 2%nat, 3%nat. split; [lia|done]. Qed.

(** * Further properties

    ** The sampling plan *)

(** X1.  For a stride of at least 1, a total frame count and a cap that are
    not negative, the number of sampled frames is the smaller of the cap and
    the total divided by the stride, rounded up; it never exceeds the total. *)
Theorem sampled_count total stride max_frames :
  1 ≤ stride → 0 ≤ total → 0 ≤ max_frames →
  let count := Z.of_nat (length (range_elems
                 (range_slice_to (Range 0 total stride) max_frames))) in
  count = Z.min max_frames ((total + stride - 1) / stride)
  ∧ count ≤ total.
Proof.
  intros Hs Ht Hm count. unfold count.
  rewrite range_elems_slice, length_take by done.
  destruct (Z.ltb_spec max_frames 0); [lia|].
  replace ((total + stride - 1) / stride)
    with (range_len (Range 0 total stride)).
  - pose proof (length_strided total stride Hs) as HN.
    pose proof (range_len_nonneg (Range 0 total stride)).
    assert (range_len (Range 0 total stride) ≤ total); [|lia].
    rewrite range_len_from_zero by done.
    destruct (Z.ltb_spec 0 total); [|lia].
    assert ((total - 1) / stride ≤ total - 1); [|lia].
    apply Z.div_le_upper_bound; nia.
  - rewrite range_len_from_zero by done.
    destruct (Z.ltb_spec 0 total).
    + replace (total + stride - 1) with (total - 1 + 1 * stride) by lia.
      rewrite Z.div_add by lia. lia.
    + replace total with 0 by lia. rewrite Z.div_small; lia.
Qed.

(** Ten frames in steps of 3: four of them. *)
Lemma sampled_count_witness :
  let count := Z.of_nat (length (range_elems
                 (range_slice_to (Range 0 10 3) 180))) in
  count = Z.min 180 ((10 + 3 - 1) / 3) ∧ count ≤ 10.
Proof. apply (sampled_count 10 3 180); lia. Defined.

(** X2.  The sampled indices come in strictly ascending order, and no two of
    them are given the same file name in the output directory. *)
Theorem sampled_frames_have_their_own_files output_dir total stride max_frames :
  1 ≤ stride →
  let l := range_elems (range_slice_to (Range 0 total stride) max_frames) in
  StronglySorted Z.lt l ∧ NoDup (frame_file output_dir <$> l).
Proof.
  intros Hs l.
  assert (Hsorted : StronglySorted Z.lt l).
  { unfold l, range_elems. cbn [start step range_slice_to].
    generalize (range_len (range_slice_to (Range 0 total stride) max_frames)).
    intros n. unfold seqZ. rewrite <- list_fmap_compose.
    generalize 0%nat.
    induction (Z.to_nat n) as [|k IH]; intros j; simpl; [constructor|].
    constructor; [apply IH|].
    apply Forall_fmap, Forall_seq. intros i Hi. simpl. nia. }
  split; [done|].
  apply NoDup_fmap_2_strong.
  - intros i j _ _. apply frame_file_inj.
  - clear -Hsorted. induction Hsorted as [|x l _ IH Hx]; constructor; [|done].
    intros Hin. rewrite Forall_forall in Hx. specialize (Hx x Hin). lia.
Qed.

(** Ten frames in steps of 3. *)
Lemma sampled_frames_have_their_own_files_witness :
  let l := range_elems (range_slice_to (Range 0 10 3) 180) in
  StronglySorted Z.lt l ∧ NoDup (frame_file ["images"] <$> l).
Proof. apply (sampled_frames_have_their_own_files ["images"] 10 3 180). lia. Defined.

(** X3.  The fraction 1.0 gives the stride 1, and with a cap that is not
    below the total frame count every frame index from 0 on is sampled. *)
Theorem every_frame_is_sampled_at_full_fraction total max_frames :
  total ≤ max_frames →
  frame_step_of PyFloat.one = Ok 1
  ∧ range_elems (range_slice_to (Range 0 total 1) max_frames) = seqZ 0 total.
Proof.
  intros Hmax. split; [done|].
  rewrite range_elems_slice by lia.
  assert (Hall : strided total 1 = seqZ 0 total).
  { unfold strided. generalize (seqZ 0 total). intros l.
    induction l as [|i l IH]; [done|].
    rewrite filter_cons_True by apply Z.mod_1_r. by rewrite IH. }
  pose proof (length_strided total 1 ltac:(lia)) as HN.
  rewrite Hall in *. rewrite length_seqZ in HN.
  apply take_ge. rewrite length_seqZ.
  destruct (Z.ltb_spec max_frames 0); lia.
Qed.

(** Ten frames under the default cap. *)
Lemma every_frame_is_sampled_at_full_fraction_witness :
  frame_step_of PyFloat.one = Ok 1
  ∧ range_elems (range_slice_to (Range 0 10 1) 180) = seqZ 0 10.
Proof. apply (every_frame_is_sampled_at_full_fraction 10 180). lia. Defined.

(** ** Input resolution *)

Lemma in_order_rank lo hi evs e s :
  in_order lo hi evs → e ∈ evs → stage_of e = Some s →
  (lo ≤ stage_rank s ≤ hi)%nat.
Proof.
  intros [_ Hb] He Hs. rewrite Forall_forall in Hb. apply Hb.
  unfold stages. apply list_elem_of_omap. exists e. by rewrite Hs.
Qed.

Lemma main_after_resolution w w1 path p perc_frames max_frames :
  resolve_input path w = (w1, Normal p) →
  ∃ evs,
    history (main path perc_frames max_frames w).1 = history w1 ++ Open p :: evs
    ∧ in_order 1 5 evs.
Proof.
  intros Hres. rewrite main_unfold, Hres.
  assert (Hnil : ∀ e : exn,
            ∃ evs, history (log (Open p) w1, Raise (A:=unit) e).1
                   = history w1 ++ Open p :: evs ∧ in_order 1 5 evs).
  { intros e. exists []. split; [done|apply in_order_nil]. }
  destruct (node_at (fs w1) p) as [[|[clip|img|]]|]; try apply (Hnil OSError).
  destruct (total_frames_of _ _) as [n|e]; [|apply Hnil].
  cbv zeta. destruct (PyFloat.in_unit_interval perc_frames).
  - destruct (emits_sample_frames p clip n perc_frames max_frames
                (log (FractionChecked true) (log (TotalFrames n) (log (Open p) w1))))
      as (evs2 & Hh2 & Ho2).
    exists ([TotalFrames n; FractionChecked true] ++ evs2).
    split; [rewrite Hh2; cbn [history log]; by rewrite <- !app_assoc|].
    apply (in_order_app 1 2 5); [lia| |by eapply in_order_weaken; [| |done]; lia].
    apply (in_order_app 1 1 2 [TotalFrames n]); [lia| |];
      by eapply in_order_step; [done|simpl; lia].
  - eexists [TotalFrames n; FractionChecked false; Print _].
    split; [cbn [fst history log]; by rewrite <- !app_assoc|].
    apply (in_order_app 1 1 5 [TotalFrames n]);
      [lia|by eapply in_order_step; [done|simpl; lia]|].
    apply (in_order_app 1 2 5 [FractionChecked false]);
      [lia|by eapply in_order_step; [done|simpl; lia]|apply in_order_print].
Qed.

(** X4.  No exception leaves the download branch of input resolution, and
    on a local path only [exists] can raise: a run that ends with an
    exception has either got as far as opening the video, or was given a
    local path whose lookup is refused, and then it ends at that test, with
    the error of the lookup and nothing else done. *)
Theorem crashes_before_opening_come_from_exists w path perc_frames max_frames e :
  (main path perc_frames max_frames w).2 = Raise e →
  (∃ p, Open p ∈ new_events w (main path perc_frames max_frames w).1)
  ∨ (lookup_refused w path e
     ∧ main path perc_frames max_frames w
       = (log (Exists (path_of path)) w, Raise e)).
Proof.
  intros Hraise.
  destruct (resolve_input_outcome w path)
    as (w1 & s0 & evs0 & Hr & Hh & _ & _ & _ & Hs0).
  destruct s0 as [p| |e0].
  - destruct (main_after_resolution w w1 path p perc_frames max_frames Hr)
      as (evs & Hhist & _).
    left. exists p. erewrite new_events_app; [|by rewrite Hhist, Hh, <- app_assoc].
    apply elem_of_app. right. constructor.
  - by rewrite main_unfold, Hr in Hraise.
  - rewrite main_unfold, Hr in Hraise |- *. injection Hraise as ->.
    destruct Hs0 as (-> & _ & Href). by right.
Qed.

(** The first run, which fails on the missing folder, reaches the video; a
    file name of 300 letters does not get past [exists]. *)
Lemma crashes_before_opening_come_from_exists_witness :
  (∃ p, Open p ∈ new_events Sample.first_run
                    (main Edge.long_name Sample.half 180 Sample.first_run).1)
  ∨ (lookup_refused Sample.first_run Edge.long_name OSError
     ∧ main Edge.long_name Sample.half 180 Sample.first_run
       = (log (Exists (path_of Edge.long_name)) Sample.first_run, Raise OSError)).
Proof.
  apply (crashes_before_opening_come_from_exists
           Sample.first_run Edge.long_name Sample.half 180 OSError).
  by vm_compute.
Defined.

(** X5.  With an input that is not a URL the run never asks the remote site
    for anything and never downloads. *)
Theorem local_path_never_contacts_the_site w path perc_frames max_frames :
  is_url path = false →
  Forall (λ e, is_connect e = false ∧ is_download e = false)
    (new_events w (main path perc_frames max_frames w).1).
Proof.
  intros Hurl.
  assert (Hlater : ∀ evs, in_order 1 5 evs →
            Forall (λ e, is_connect e = false ∧ is_download e = false) evs).
  { intros evs Ho. apply Forall_forall. intros e He.
    destruct e; try done;
      by (eapply in_order_rank in He; [|done..]; simpl in He; lia). }
  pose proof (resolve_input_local w path Hurl) as Hr. cbv zeta in Hr.
  destruct (node_at (fs w) (path_of path)); [|destruct (ignore_error _)].
  - destruct (main_after_resolution w _ path _ perc_frames max_frames Hr)
      as (evs & Hh & Ho).
    erewrite new_events_app;
      [|rewrite Hh; cbn [history log]; by rewrite <- app_assoc].
    repeat (apply Forall_cons_2; [done|]). by apply Hlater.
  - rewrite main_unfold, Hr. erewrite new_events_app;
      [|cbn [fst history log]; by rewrite <- !app_assoc].
    by repeat (apply Forall_cons_2; [done|]).
  - rewrite main_unfold, Hr. erewrite new_events_app by done.
    by repeat (apply Forall_cons_2; [done|]).
Qed.

(** A local video. *)
Lemma local_path_never_contacts_the_site_witness :
  Forall (λ e, is_connect e = false ∧ is_download e = false)
    (new_events Sample.second_run
       (main "video.mp4" Sample.half 180 Sample.second_run).1).
Proof.
  apply (local_path_never_contacts_the_site Sample.second_run "video.mp4"
           Sample.half 180).
  reflexivity.
Defined.

(** X6.  A local path is only tested for existence: when it names a
    directory or a file that is not a video, MoviePy's [OSError] ends the
    run, whatever the fraction and the cap; nothing is reported and the file
    system is as it was. *)
Theorem unreadable_local_file_crashes w path perc_frames max_frames n :
  is_url path = false →
  node_at (fs w) (path_of path) = Some n →
  (∀ clip, n ≠ File (Video clip)) →
  main path perc_frames max_frames w
  = (log (Open (path_of path)) (log (Exists (path_of path)) w), Raise OSError).
Proof.
  intros Hurl Hn Hnot. rewrite main_unfold, (resolve_input_found _ _ n) by done.
  cbn [fs log]. rewrite Hn.
  destruct n as [|[clip|img|]]; try done. by destruct (Hnot clip).
Qed.

(** The [images] folder given as the video. *)
Lemma unreadable_local_file_crashes_witness :
  main "images" Sample.half 180 Sample.second_run
  = (log (Open (path_of "images")) (log (Exists (path_of "images")) Sample.second_run),
     Raise OSError).
Proof.
  apply (unreadable_local_file_crashes Sample.second_run "images" Sample.half 180 Dir);
    [reflexivity|reflexivity|discriminate].
Defined.

(** X7.  Whatever the URL, a fetch that succeeds asks once for the stream
    [get_highest_resolution] picks, has it written to [downloaded_video] in
    the current directory, and resolves the input to
    [downloaded_video.mp4]. *)
Theorem fetched_video_gets_a_fixed_name w url l s c :
  is_url url = true →
  site w url = Ok l →
  get_highest_resolution l = Some s →
  fetch s = Ok c →
  node_at (fs w) downloaded_video ≠ Some Dir →
  ∃ w1,
    resolve_input url w = (w1, Normal ["downloaded_video.mp4"])
    ∧ fs w1 = <[downloaded_video := File c]> (fs w)
    ∧ new_events w w1
      = [Print "Downloading video from YouTube..."; Connect url;
         Download downloaded_video; Print "Downloaded video to downloaded_video"].
Proof.
  intros Hurl Hsite Hpick Hfetch Hdir.
  rewrite resolve_input_url by done. cbv zeta. rewrite Hsite.
  destruct l as [|s0 l]; [done|]. rewrite Hpick, Hfetch.
  destruct (node_at (fs w) downloaded_video) as [[|?]|]; [done|..];
    (eexists; split; [done|]; split; [done|];
     apply new_events_app; cbn [history log set_fs]; by rewrite <- !app_assoc).
Qed.

(** A site with three streams. *)
Lemma fetched_video_gets_a_fixed_name_witness :
  ∃ w1,
    resolve_input "https://youtu.be/x" Edge.online
    = (w1, Normal ["downloaded_video.mp4"])
    ∧ fs w1 = <[downloaded_video := File (Video Sample.clip)]> (fs Edge.online)
    ∧ new_events Edge.online w1
      = [Print "Downloading video from YouTube..."; Connect "https://youtu.be/x";
         Download downloaded_video; Print "Downloaded video to downloaded_video"].
Proof.
  apply (fetched_video_gets_a_fixed_name Edge.online "https://youtu.be/x"
           Edge.streams
           {| progressive := true; resolution := 720;
              fetch := Ok (Video Sample.clip) |});
    try reflexivity.
  discriminate.
Defined.

(** X8.  The file a successful fetch is asked to write, [downloaded_video],
    is not the one the run goes on to open, [downloaded_video.mp4]: with a
    download that writes the file name it is given, and no video of that
    other name around, the run ends with MoviePy's [OSError] and without an
    error message. *)
Theorem fetched_video_is_not_the_one_opened w url l s c perc_frames max_frames :
  is_url url = true →
  site w url = Ok l →
  get_highest_resolution l = Some s →
  fetch s = Ok c →
  node_at (fs w) downloaded_video ≠ Some Dir →
  (∀ clip, fs w !! ["downloaded_video.mp4"] ≠ Some (File (Video clip))) →
  ∃ w',
    main url perc_frames max_frames w = (w', Raise OSError)
    ∧ fs w' = <[downloaded_video := File c]> (fs w)
    ∧ no_error_reported (new_events w w').
Proof.
  intros Hurl Hsite Hpick Hfetch Hdir Hnone.
  rewrite main_unfold, resolve_input_url by done. cbv zeta. rewrite Hsite.
  destruct l as [|s0 l]; [done|]. rewrite Hpick, Hfetch.
  assert (Hopen : ∀ m : gmap Path node,
    node_at (<[downloaded_video := File c]> (fs w)) ["downloaded_video.mp4"]
    = fs w !! ["downloaded_video.mp4"]).
  { intros _. cbn. by rewrite lookup_insert_ne. }
  destruct (node_at (fs w) downloaded_video) as [[|?]|]; [done|..];
    cbn [fs log set_fs]; rewrite (Hopen ∅);
    (destruct (fs w !! ["downloaded_video.mp4"]) as [[|[clip|img|]]|] eqn:E;
     [..|]; try (by destruct (Hnone clip));
     (eexists; split; [done|]; split; [done|];
      erewrite new_events_app;
        [|cbn [history log set_fs]; by rewrite <- !app_assoc];
      by repeat (apply Forall_cons_2; [done|]))).
Qed.

(** A directory holding nothing but an [images] folder. *)
Lemma fetched_video_is_not_the_one_opened_witness :
  ∃ w',
    main "https://youtu.be/x" Sample.half 180 Edge.online = (w', Raise OSError)
    ∧ fs w' = <[downloaded_video := File (Video Sample.clip)]> (fs Edge.online)
    ∧ no_error_reported (new_events Edge.online w').
Proof.
  apply (fetched_video_is_not_the_one_opened Edge.online "https://youtu.be/x"
           Edge.streams
           {| progressive := true; resolution := 720;
              fetch := Ok (Video Sample.clip) |});
    try reflexivity; discriminate.
Defined.

(** ** The output directory *)

Lemma sample_frames_not_a_dir w p clip total perc_frames max_frames c :
  node_at (fs w) (parent p </> "images") = Some (File c) →
  sample_frames p clip total perc_frames max_frames w
  = (log (Rmtree (parent p </> "images")) w, Raise NotADirectoryError).
Proof. intros Hd. unfold sample_frames. run. unfold rmtree. by rewrite Hd. Qed.

Lemma sample_frames_no_step w p clip total perc_frames max_frames e :
  node_at (fs w) (parent p </> "images") = Some Dir →
  node_at (fs w) (parent p) = Some Dir →
  frame_step_of perc_frames = Err e →
  sample_frames p clip total perc_frames max_frames w
  = (set_fs (<[parent p </> "images" := Dir]>
               (filter (λ kv, ¬ (parent p </> "images") `prefix_of` kv.1) (fs w)))
       (log (Mkdir (parent p </> "images")) (log (Rmtree (parent p </> "images")) w)),
     Raise e).
Proof.
  intros Hd Hp Hstep. unfold sample_frames.
  unfold mbind at 1, M_bind at 1. rewrite rmtree_dir by done.
  unfold mbind at 1, M_bind at 1. rewrite mkdir_after_rmtree by done.
  rewrite Hstep. by run.
Qed.

(** Three frames replace the old [7.jpg]. *)
Lemma output_dir_holds_only_new_frames_witness :
  let output_dir := parent ["video.mp4"] </> "images" in
  let frame_indices := range_slice_to (Range 0 10 2) 3 in
  let m := fs (main "video.mp4" Sample.half 3 Sample.second_run).1 in
  m !! output_dir = Some Dir
  ∧ ∀ q, output_dir `prefix_of` q → q ≠ output_dir →
      q ∉ frame_file output_dir <$> range_elems frame_indices →
      m !! q = None.
Proof.
  apply (output_dir_holds_only_new_frames
           Sample.second_run (log (Exists ["video.mp4"]) Sample.second_run)
           "video.mp4" ["video.mp4"] Sample.clip 10 2 3 Sample.half);
    try reflexivity.
  - split; reflexivity.
  - lia.
Defined.

(** X10.  When [images] beside the video is a file and not a directory,
    [shutil.rmtree] raises [NotADirectoryError]: the run ends there, nothing
    is reported and the file system is as it was. *)
Theorem file_in_place_of_output_dir_crashes
    w w1 path p clip total perc_frames max_frames c :
  resolve_input path w = (w1, Normal p) →
  holds_video (fs w1) p clip →
  total_frames_of (fps clip) (duration clip) = Ok total →
  PyFloat.in_unit_interval perc_frames = true →
  node_at (fs w1) (parent p </> "images") = Some (File c) →
  ∃ w',
    main path perc_frames max_frames w = (w', Raise NotADirectoryError)
    ∧ fs w' = fs w1
    ∧ no_error_reported (new_events w1 w').
Proof.
  intros Hres Hvid Htot Hvalid Hdir. eexists. split; [|split].
  - rewrite (main_reaches_sampling w w1 path p clip total) by done.
    by eapply sample_frames_not_a_dir.
  - done.
  - erewrite new_events_app; [|cbn [history log]; by rewrite <- !app_assoc].
    by repeat (apply Forall_cons_2; [done|]).
Qed.

(** A regular file called [images]. *)
Lemma file_in_place_of_output_dir_crashes_witness :
  let w1 := log (Exists ["video.mp4"]) Edge.images_is_a_file in
  ∃ w',
    main "video.mp4" Sample.half 180 Edge.images_is_a_file
    = (w', Raise NotADirectoryError)
    ∧ fs w' = fs w1
    ∧ no_error_reported (new_events w1 w').
Proof.
  apply (file_in_place_of_output_dir_crashes
           Edge.images_is_a_file (log (Exists ["video.mp4"]) Edge.images_is_a_file)
           "video.mp4" ["video.mp4"] Sample.clip 10 Sample.half 180 Other);
    try reflexivity.
  split; reflexivity.
Defined.

(** X11.  The output directory is recreated before the stride is computed:
    when that computation raises, the run ends with its exception and the
    directory, whatever it held, is left empty. *)
Theorem failed_step_leaves_output_dir_empty
    w w1 path p clip total perc_frames max_frames e :
  resolve_input path w = (w1, Normal p) →
  holds_video (fs w1) p clip →
  total_frames_of (fps clip) (duration clip) = Ok total →
  PyFloat.in_unit_interval perc_frames = true →
  node_at (fs w1) (parent p </> "images") = Some Dir →
  frame_step_of perc_frames = Err e →
  ∃ w',
    main path perc_frames max_frames w = (w', Raise e)
    ∧ empty_dir (fs w') (parent p </> "images")
    ∧ new_events w1 w'
      = [Open p; TotalFrames total; FractionChecked true;
         Rmtree (parent p </> "images"); Mkdir (parent p </> "images")].
Proof.
  intros Hres Hvid Htot Hvalid Hdir Hstep. eexists. split; [|split].
  - rewrite (main_reaches_sampling w w1 path p clip total) by done.
    apply sample_frames_no_step; [done|by destruct Hvid|done].
  - apply recreated_dir_is_empty.
  - apply new_events_app. cbn [history log set_fs]. by rewrite <- !app_assoc.
Qed.

(** The fraction 5e-324, whose reciprocal overflows. *)
Lemma failed_step_leaves_output_dir_empty_witness :
  let w1 := log (Exists ["video.mp4"]) Sample.second_run in
  ∃ w',
    main "video.mp4" Sample.tiny 180 Sample.second_run = (w', Raise OverflowError)
    ∧ empty_dir (fs w') (parent ["video.mp4"] </> "images")
    ∧ new_events w1 w'
      = [Open ["video.mp4"]; TotalFrames 10; FractionChecked true;
         Rmtree (parent ["video.mp4"] </> "images");
         Mkdir (parent ["video.mp4"] </> "images")].
Proof.
  apply (failed_step_leaves_output_dir_empty
           Sample.second_run (log (Exists ["video.mp4"]) Sample.second_run)
           "video.mp4" ["video.mp4"] Sample.clip 10 Sample.tiny 180 OverflowError);
    try reflexivity.
  split; reflexivity.
Defined.

(** X12.  A video with no frame to count (a total frame count of 0 or less)
    goes through: the output directory is recreated and left empty, no frame
    is saved, and the last line reports 0 frames. *)
Theorem frameless_video_leaves_output_dir_empty
    w w1 path p clip total stride perc_frames max_frames :
  resolve_input path w = (w1, Normal p) →
  holds_video (fs w1) p clip →
  total_frames_of (fps clip) (duration clip) = Ok total →
  total ≤ 0 →
  PyFloat.in_unit_interval perc_frames = true →
  frame_step_of perc_frames = Ok stride →
  node_at (fs w1) (parent p </> "images") = Some Dir →
  ∃ w',
    main path perc_frames max_frames w = (w', Normal tt)
    ∧ empty_dir (fs w') (parent p </> "images")
    ∧ saved_files (new_events w1 w') = []
    ∧ last (history w') = Some (Print (complete_line 0 (parent p </> "images"))).
Proof.
  intros Hres Hvid Htot Hzero Hvalid Hstep Hdir.
  pose proof (frame_step_of_ge_1 _ _ Hstep) as Hs.
  assert (Hnone : range_elems (range_slice_to (Range 0 total stride) max_frames) = []).
  { rewrite range_elems_slice by done. unfold strided.
    rewrite seqZ_nil by done. apply take_nil. }
  eexists. split; [|split; [|split]].
  - apply (main_extracts w w1 path p clip total stride); try done.
    rewrite Hnone. apply Forall_nil_2.
  - cbn [fs]. rewrite Hnone. apply recreated_dir_is_empty.
  - erewrite new_events_app by done. by rewrite Hnone.
  - cbn [history]. rewrite !app_assoc, last_snoc.
    by rewrite <- length_range_elems, Hnone.
Qed.

(** A clip of no duration. *)
Lemma frameless_video_leaves_output_dir_empty_witness :
  let w1 := log (Exists ["still.mp4"]) Edge.still_video in
  ∃ w',
    main "still.mp4" Sample.half 180 Edge.still_video = (w', Normal tt)
    ∧ empty_dir (fs w') (parent ["still.mp4"] </> "images")
    ∧ saved_files (new_events w1 w') = []
    ∧ last (history w')
      = Some (Print (complete_line 0 (parent ["still.mp4"] </> "images"))).
Proof.
  apply (frameless_video_leaves_output_dir_empty
           Edge.still_video (log (Exists ["still.mp4"]) Edge.still_video)
           "still.mp4" ["still.mp4"] Edge.still 0 2 Sample.half 180);
    try reflexivity.
  split; reflexivity.
Defined.

(** ** What a run leaves alone *)

Lemma keeps_bind {A B} d (m : M A) (f : A → M B) :
  keeps d m → (∀ a, keeps d (f a)) → keeps d (m ≫= f).
Proof.
  intros Hm Hf w q Hq. unfold mbind, M_bind.
  specialize (Hm w q Hq). destruct (m w) as [w1 [a| |e]]; [|done..].
  rewrite <- Hm. by apply Hf.
Qed.

Lemma keeps_pure {A} d (m : M A) : (∀ w, fs (m w).1 = fs w) → keeps d m.
Proof. intros Hm w q _. by rewrite Hm. Qed.

Lemma keeps_for_each {A} d (l : list A) (body : A → M unit) :
  (∀ x, keeps d (body x)) → keeps d (for_each l body).
Proof.
  intros Hb. induction l as [|x l IH]; simpl; [by apply keeps_pure|].
  by apply keeps_bind.
Qed.

Lemma keeps_rmtree d : keeps d (rmtree d).
Proof.
  intros w q Hq. unfold rmtree. destruct (node_at _ _) as [[|?]|]; try done.
  cbn [fst fs set_fs log]. destruct (fs w !! q) as [x|] eqn:E.
  - by apply map_lookup_filter_Some_2.
  - apply map_lookup_filter_None_2. by left.
Qed.

Lemma keeps_mkdir d : keeps d (mkdir d).
Proof.
  intros w q Hq. unfold mkdir. destruct (node_at _ d) as [?|]; [done|].
  destruct (node_at _ _) as [[|?]|]; try done.
  cbn [fst fs set_fs log]. apply lookup_insert_ne. by intros <-.
Qed.

Lemma keeps_save d img i : keeps d (save img (frame_file d i)).
Proof.
  intros w q Hq. unfold save.
  destruct (node_at _ (frame_file d i)) as [[|?]|];
    try done; destruct (node_at _ _) as [[|?]|]; try done;
    cbn [fst fs set_fs log]; apply lookup_insert_ne; intros <-; apply Hq;
    by eexists.
Qed.

Lemma keeps_sample_frames p clip total perc_frames max_frames :
  keeps (parent p </> "images")
    (sample_frames p clip total perc_frames max_frames).
Proof.
  unfold sample_frames.
  apply keeps_bind; [apply keeps_rmtree|intros _].
  apply keeps_bind; [apply keeps_mkdir|intros _].
  apply keeps_bind; [apply keeps_pure; intros w; by destruct (frame_step_of _)|].
  intros frame_step.
  apply keeps_bind; [apply keeps_pure; intros w; by destruct (frame_indices_of _ _ _)|].
  intros frame_indices.
  apply keeps_bind; [by apply keeps_pure|intros _].
  apply keeps_bind; [|intros _; by apply keeps_pure].
  apply keeps_for_each. intros fnum. unfold extract_frame.
  apply keeps_bind; [apply keeps_pure; intros w; by destruct (PyFloat.int_truediv _ _)|].
  intros t. apply keeps_bind; [by apply keeps_pure|intros img].
  apply keeps_save.
Qed.

Lemma main_after_resolution_keeps w w1 path p perc_frames max_frames q :
  resolve_input path w = (w1, Normal p) →
  ¬ (parent p </> "images") `prefix_of` q →
  fs (main path perc_frames max_frames w).1 !! q = fs w1 !! q.
Proof.
  intros Hres Hq. rewrite main_unfold, Hres.
  destruct (node_at (fs w1) p) as [[|[clip|img|]]|]; try done.
  destruct (total_frames_of _ _) as [n|e]; [|done].
  cbv zeta. destruct (PyFloat.in_unit_interval perc_frames); [|done].
  by rewrite keeps_sample_frames.
Qed.

(** X13.  Whatever way a run ends, it changes nothing outside the output
    directory of the resolved video, the downloaded file apart. *)
Theorem files_outside_output_dir_are_kept w path perc_frames max_frames q :
  q ≠ downloaded_video →
  (∀ w1 p, resolve_input path w = (w1, Normal p) →
           ¬ (parent p </> "images") `prefix_of` q) →
  fs (main path perc_frames max_frames w).1 !! q = fs w !! q.
Proof.
  intros Hq Hout.
  destruct (resolve_input_outcome w path)
    as (w1 & s0 & evs0 & Hr & _ & _ & Hfs & _ & Hs0).
  destruct s0 as [p| |e].
  - rewrite (main_after_resolution_keeps w w1 path p) by eauto. by apply Hfs.
  - rewrite main_unfold, Hr. by apply Hfs.
  - rewrite main_unfold, Hr. by apply Hfs.
Qed.

(** A file beside the video. *)
Lemma files_outside_output_dir_are_kept_witness :
  fs (main "video.mp4" Sample.half 180 Edge.images_is_a_file).1 !! ["notes.txt"]
  = fs Edge.images_is_a_file !! ["notes.txt"].
Proof.
  apply (files_outside_output_dir_are_kept Edge.images_is_a_file "video.mp4"
           Sample.half 180 ["notes.txt"]); [discriminate|].
  intros w1 p [= <- <-] [k Hk]. discriminate Hk.
Defined.

Lemma output_dir_below_video p :
  (parent p </> "images") `prefix_of` p → parent p </> "images" = p.
Proof.
  intros Hpre. destruct p as [|c p _] using rev_ind.
  - by destruct Hpre as [[|??] ?].
  - unfold parent in *. rewrite reverse_snoc in *.
    destruct (is_anchor c).
    + apply prefix_length in Hpre. unfold joinpath in Hpre.
      rewrite !length_app in Hpre. simpl in Hpre. lia.
    + rewrite reverse_involutive in *. unfold joinpath in *.
      destruct Hpre as [k Hk]. rewrite <- app_assoc in Hk.
      apply app_inv_head in Hk. by injection Hk as <- <-.
Qed.

(** X14.  A run on a local path never changes what is at that path, also when
    the path itself is called [images]. *)
Theorem input_video_is_kept w path perc_frames max_frames :
  is_url path = false →
  fs (main path perc_frames max_frames w).1 !! path_of path
  = fs w !! path_of path.
Proof.
  intros Hurl. pose proof (resolve_input_local w path Hurl) as Hr. cbv zeta in Hr.
  set (p := path_of path) in *.
  destruct (node_at (fs w) p) as [n0|] eqn:Hn0;
    [|by destruct (ignore_error _); rewrite main_unfold, Hr].
  destruct (decide ((parent p </> "images") `prefix_of` p)) as [Hpre|Hout];
    [|by rewrite (main_after_resolution_keeps w (log (Exists p) w) path p)].
  rewrite main_unfold, Hr. cbn [fs log].
  destruct (node_at (fs w) p) as [[|[clip|img|]]|] eqn:Hnode; try done.
  destruct (total_frames_of _ _) as [n|e]; [|done].
  cbv zeta. destruct (PyFloat.in_unit_interval perc_frames); [|done].
  assert (Hd : parent p </> "images" = p).
  { destruct p as [|c p _] using rev_ind; [done|].
    unfold parent in *. rewrite reverse_snoc in *.
    destruct (is_anchor c).
    - apply prefix_length in Hpre. unfold joinpath in Hpre.
      rewrite !length_app in Hpre. simpl in Hpre. lia.
    - rewrite reverse_involutive in *. unfold joinpath in *.
      destruct Hpre as [k Hk]. rewrite <- app_assoc in Hk.
      apply app_inv_head in Hk. by injection Hk as <- <-. }
  erewrite sample_frames_not_a_dir; [done|].
  cbn [fs log]. by rewrite Hd, Hnode.
Qed.

(** The sample video. *)
Lemma input_video_is_kept_witness :
  fs (main "video.mp4" Sample.half 180 Sample.second_run).1 !! path_of "video.mp4"
  = fs Sample.second_run !! path_of "video.mp4".
Proof.
  apply (input_video_is_kept Sample.second_run "video.mp4" Sample.half 180).
  reflexivity.
Defined.

Lemma node_at_ext (m1 m2 : gmap Path node) q :
  m1 !! q = m2 !! q → node_at m1 q = node_at m2 q.
Proof.
  intros H. unfold node_at. destruct q as [|a [|b q]]; [done| |done].
  by destruct (is_anchor a).
Qed.

Lemma extracted_lookup_outside (clip : Clip) (d : Path) (l : list Z) (m : gmap Path node) (q : Path) :
  ¬ d `prefix_of` q →
  write_frames clip d l (<[d := Dir]> (filter (λ kv, ¬ d `prefix_of` kv.1) m)) !! q
  = m !! q.
Proof.
  intros Hq. rewrite write_frames_lookup_other.
  - rewrite lookup_insert_ne by (by intros <-).
    destruct (m !! q) as [x|] eqn:E.
    + by apply map_lookup_filter_Some_2.
    + apply map_lookup_filter_None_2. by left.
  - intros i _ ->. apply Hq. by eexists.
Qed.

Lemma extracted_filter (clip : Clip) (d : Path) (l : list Z) (m : gmap Path node) :
  filter (λ kv, ¬ d `prefix_of` kv.1)
    (write_frames clip d l (<[d := Dir]> (filter (λ kv, ¬ d `prefix_of` kv.1) m)))
  = filter (λ kv : Path * node, ¬ d `prefix_of` kv.1) m.
Proof.
  apply map_eq. intros q. destruct (decide (d `prefix_of` q)) as [Hq|Hq].
  - rewrite !map_lookup_filter_None_2; [done|right; by intros ? _ []..].
  - rewrite !map_lookup_filter. by rewrite extracted_lookup_outside.
Qed.

(** X15.  Running the script again on a local video, after a run that went
    through, goes through as well and leaves the file system exactly as the
    first run left it. *)
Theorem second_run_gives_the_same_files
    w path clip total stride perc_frames max_frames :
  is_url path = false →
  holds_video (fs w) (path_of path) clip →
  total_frames_of (fps clip) (duration clip) = Ok total →
  total ≤ 2 ^ 53 →
  PyFloat.in_unit_interval perc_frames = true →
  frame_step_of perc_frames = Ok stride →
  node_at (fs w) (parent (path_of path) </> "images") = Some Dir →
  let first := main path perc_frames max_frames w in
  let second := main path perc_frames max_frames first.1 in
  first.2 = Normal tt ∧ second.2 = Normal tt ∧ fs second.1 = fs first.1.
Proof.
  intros Hurl Hvid Htot Hbound Hvalid Hstep Hdir.
  set (p := path_of path) in *. set (d := parent p </> "images") in *.
  pose proof (sampled_timestamps_defined clip total stride max_frames perc_frames
                Htot Hstep Hbound) as Htimes.
  assert (Hres : ∀ w0, is_Some (node_at (fs w0) p) →
            resolve_input path w0 = (log (Exists p) w0, Normal p)).
  { intros w0 [n0 Hsome]. by apply (resolve_input_found _ _ n0). }
  pose proof (main_extracts w (log (Exists p) w) path p clip total stride max_frames
                perc_frames (Hres w ltac:(destruct Hvid as [-> _]; eauto))
                Hvid Htot Hvalid Hstep Hdir Htimes) as Hfirst.
  fold d in Hfirst. cbv zeta. rewrite Hfirst. cbn [fst snd].
  split; [done|].
  set (w' := {| fs := _ |}) in *.
  assert (Hout : ¬ d `prefix_of` p).
  { intros Hpre%output_dir_below_video. destruct Hvid as [Hnode _].
    fold p in Hnode. unfold d in Hdir. rewrite Hpre in Hdir. congruence. }
  assert (Hvid' : holds_video (fs w') p clip).
  { destruct Hvid as [Hnode Hpar]. split.
    - rewrite <- Hnode. apply node_at_ext. by apply extracted_lookup_outside.
    - rewrite <- Hpar. apply node_at_ext. apply extracted_lookup_outside.
      apply prefix_snoc_not. }
  assert (Hdir' : node_at (fs w') d = Some Dir).
  { unfold d. rewrite node_at_join by done. fold d. cbn [fs w'].
    rewrite write_frames_lookup_other; [by rewrite lookup_insert_eq|].
    intros i _ H%(f_equal length). unfold frame_file, joinpath in H.
    rewrite length_app in H. simpl in H. lia. }
  rewrite (main_extracts w' (log (Exists p) w') path p clip total stride max_frames
             perc_frames (Hres w' ltac:(destruct Hvid' as [-> _]; eauto))
             Hvid' Htot Hvalid Hstep Hdir' Htimes).
  cbn [fst snd fs log]. split; [done|]. fold d.
  unfold w' at 1. cbn [fs]. by rewrite extracted_filter.
Qed.

(** Twice on the sample video. *)
Lemma second_run_gives_the_same_files_witness :
  let first := main "video.mp4" Sample.half 3 Sample.second_run in
  let second := main "video.mp4" Sample.half 3 first.1 in
  first.2 = Normal tt ∧ second.2 = Normal tt ∧ fs second.1 = fs first.1.
Proof.
  apply (second_run_gives_the_same_files
           Sample.second_run "video.mp4" Sample.clip 10 2 Sample.half 3);
    try reflexivity.
  - split; reflexivity.
  - lia.
Defined.

(** ** How a run ends *)

Lemma exits_bind {A B} (P Q : World → Prop) (m : M A) (f : A → M B) :
  exits P m → (∀ a, exits Q (f a)) → exits Q (m ≫= f).
Proof.
  intros Hm Hf w. unfold mbind, M_bind. specialize (Hm w).
  destruct (m w) as [w1 [a| |e]]; [apply Hf|done..].
Qed.

Lemma exits_for_each {A} (l : list A) (body : A → M unit) :
  (∀ x, exits (λ _, True) (body x)) → exits (λ _, True) (for_each l body).
Proof.
  intros Hb. induction l as [|x l IH]; simpl; [done|].
  by eapply exits_bind.
Qed.

Lemma exits_sample_frames p clip total perc_frames max_frames :
  exits (λ w', ∃ n, last (history w')
                    = Some (Print (complete_line n (parent p </> "images"))))
    (sample_frames p clip total perc_frames max_frames).
Proof.
  unfold sample_frames.
  eapply (exits_bind (λ _, True)).
  { intros w. unfold rmtree. by destruct (node_at _ _) as [[|?]|]. }
  intros _. eapply (exits_bind (λ _, True)).
  { intros w. unfold mkdir. destruct (node_at _ _) as [?|]; [done|].
    by destruct (node_at _ _) as [[|?]|]. }
  intros _. eapply (exits_bind (λ _, True)).
  { intros w. by destruct (frame_step_of _). }
  intros frame_step. eapply (exits_bind (λ _, True)).
  { intros w. by destruct (frame_indices_of _ _ _). }
  intros frame_indices. eapply (exits_bind (λ _, True)); [done|].
  intros _. eapply (exits_bind (λ _, True)).
  - apply exits_for_each. intros fnum. unfold extract_frame.
    eapply (exits_bind (λ _, True)).
    { intros w. by destruct (PyFloat.int_truediv _ _). }
    intros t. eapply (exits_bind (λ _, True)); [done|].
    intros img w. unfold save.
    destruct (node_at _ _) as [[|?]|]; [done|..];
      by destruct (node_at _ _) as [[|?]|].
  - intros _ w. cbn. exists (range_len frame_indices). by rewrite last_snoc.
Qed.

(** X16.  A run that falls off the end of [main] has printed the line that
    reports the frame count last; a run that returns early has printed an
    error message last. *)
Theorem every_exit_is_announced w path perc_frames max_frames :
  match main path perc_frames max_frames w with
  | (w', Normal _) =>
      ∃ n d, last (history w') = Some (Print (complete_line n d))
  | (w', Return) => reports_error (new_events w w')
  | (_, Raise _) => True
  end.
Proof.
  destruct (resolve_input_outcome w path)
    as (w1 & s0 & evs0 & Hr & Hh & _ & _ & _ & Hs0).
  rewrite main_unfold, Hr.
  destruct s0 as [p| |e]; [| |done].
  - destruct (node_at (fs w1) p) as [[|[clip|img|]]|]; try done.
    destruct (total_frames_of _ _) as [n|e]; [|done].
    cbv zeta. destruct (PyFloat.in_unit_interval perc_frames).
    + pose proof (exits_sample_frames p clip n perc_frames max_frames
                    (log (FractionChecked true)
                       (log (TotalFrames n) (log (Open p) w1)))) as Hexit.
      destruct (sample_frames _ _ _ _ _ _) as [w' [[]| |e]]; [|done..].
      destruct Hexit as [k Hk]. eauto.
    + erewrite new_events_app;
        [|cbn [history log]; by rewrite Hh, <- !app_assoc].
      apply reports_error_app; [done|]. by eexists.
  - destruct Hs0 as [Herr _]. by erewrite new_events_app.
Qed.
